(** * todo-list-MERN: the task and category API routes, verified

    A shallow embedding of
      - app/api/tasks/route.ts            (GET, POST)
      - app/api/categories/route.ts       (GET, POST)
      - app/api/categories/[id]/route.ts  (GET, DELETE)
      - TodoForm.tsx                      (handleSaveTask)
    and of the JavaScript library behaviour these handlers rely on
    (truthiness, [String.prototype.split], [Number], [Date], [ObjectId]).
    The update and the delete of a task by id, whose route is not among
    the sources, are given as the spec describes them ([TaskService]).

    Layout: JavaScript values; strings; dates; the document store and the
    handler monad; the three route modules; the form; the imported
    functions and the task operations by id; the pages; then the
    theorems. *)

From Stdlib Require Import ZArith String Ascii List Bool Lia.
From stdpp Require Import gmap strings list.

Local Open Scope string_scope.
Local Open Scope Z_scope.

(* ===================================================================== *)
(** ** JavaScript values *)
(* ===================================================================== *)

(** The values that flow through the handlers: what [req.json()] puts in a
    body field ([JUndefined] is an absent key), what a stored document
    holds, and what the handlers compute.  [JNum] carries integral numbers
    only.  [JDate None] is an Invalid Date.  [JObj repr] is any other
    object or array, kept as the string it converts to. *)
Inductive JsVal : Type :=
| JUndefined
| JNull
| JBool (b : bool)
| JNum (n : Z)
| JStr (s : string)
| JDate (tv : option Z)
| JObj (repr : string).

Definition is_empty_string (s : string) : bool :=
  match s with EmptyString => true | String _ _ => false end.

(** ToBoolean. *)
Definition truthy (v : JsVal) : bool :=
  match v with
  | JUndefined | JNull => false
  | JBool b => b
  | JNum n => negb (n =? 0)
  | JStr s => negb (is_empty_string s)
  | JDate _ | JObj _ => true
  end.

(** [a || b] and [a && b]: they return one of their operands, not a
    boolean. *)
Definition js_or (a b : JsVal) : JsVal := if truthy a then a else b.
Definition js_and (a b : JsVal) : JsVal := if truthy a then b else a.

(* ===================================================================== *)
(** ** Strings: split and Number *)
(* ===================================================================== *)

(** [s.split(sep)] for a one-character separator: cuts at every occurrence
    of [sep], keeping empty pieces; the result is never empty. *)
Fixpoint split_on (sep : ascii) (s : string) : list string :=
  match s with
  | EmptyString => [EmptyString]
  | String c rest =>
      if Ascii.eqb c sep then EmptyString :: split_on sep rest
      else match split_on sep rest with
           | [] => [String c EmptyString]
           | piece :: pieces => String c piece :: pieces
           end
  end.

Definition digit_val (c : ascii) : option Z :=
  let n := Z.of_N (N_of_ascii c) in
  if (48 <=? n) && (n <=? 57) then Some (n - 48) else None.

Fixpoint digits_val (acc : Z) (s : string) : option Z :=
  match s with
  | EmptyString => Some acc
  | String c rest =>
      match digit_val c with
      | Some d => digits_val (acc * 10 + d) rest
      | None => None
      end
  end.

(** [Number(s)] on a string; [None] is NaN.  The empty string converts to
    0 and a run of decimal digits to its value.  Signs, fractions,
    exponents, radix prefixes and surrounding blanks, which [Number] also
    reads, are left out: they are NaN here. *)
Definition Number (s : string) : option Z := digits_val 0 s.

(* ===================================================================== *)
(** ** Dates *)
(* ===================================================================== *)

(** A Date's time value is a number of milliseconds since the epoch, in
    UTC; [None] is NaN.  The server's zone is a fixed offset [tza]
    (milliseconds east of UTC). *)
Definition msPerSecond : Z := 1000.
Definition msPerMinute : Z := 60000.
Definition msPerHour : Z := 3600000.
Definition msPerDay : Z := 86400000.

Definition Day (t : Z) : Z := t / msPerDay.
Definition TimeWithinDay (t : Z) : Z := t mod msPerDay.
Definition msFromTime (t : Z) : Z := t mod msPerSecond.
Definition LocalTime (tza t : Z) : Z := t + tza.
Definition UTC (tza t : Z) : Z := t - tza.

Definition TimeClip (t : Z) : option Z :=
  if Z.abs t <=? 8640000000000000 then Some t else None.

Definition MakeTime (h m s ms : Z) : Z :=
  h * msPerHour + m * msPerMinute + s * msPerSecond + ms.

Definition MakeDate (day time : Z) : Z := day * msPerDay + time.

(** Days from the epoch to the civil date [y]-[m]-[d] (proleptic
    Gregorian); a day number past the month's end runs into the next
    month, as MakeDay does. *)
Definition days_from_civil (y m d : Z) : Z :=
  let y' := if m <=? 2 then y - 1 else y in
  let era := y' / 400 in
  let yoe := y' - era * 400 in
  let mp := if m <=? 2 then m + 9 else m - 3 in
  let doy := (153 * mp + 2) / 5 + d - 1 in
  let doe := yoe * 365 + yoe / 4 - yoe / 100 + doy in
  era * 146097 + doe - 719468.

Definition is_leap (y : Z) : bool :=
  ((y mod 4 =? 0) && negb (y mod 100 =? 0)) || (y mod 400 =? 0).

Definition days_in_month (y m : Z) : Z :=
  if m =? 2 then (if is_leap y then 29 else 28)
  else if (m =? 4) || (m =? 6) || (m =? 9) || (m =? 11) then 30
  else 31.

(** The date-only form YYYY-MM-DD of the date-time string format. *)
Definition parse_iso_date (s : string) : option (Z * Z * Z) :=
  match s with
  | String y1 (String y2 (String y3 (String y4 (String sep1
      (String m1 (String m2 (String sep2
      (String d1 (String d2 EmptyString))))))))) =>
      if Ascii.eqb sep1 "-" && Ascii.eqb sep2 "-" then
        match digits_val 0
                (String y1 (String y2 (String y3 (String y4 EmptyString)))),
              digits_val 0 (String m1 (String m2 EmptyString)),
              digits_val 0 (String d1 (String d2 EmptyString)) with
        | Some y, Some m, Some d =>
            if (1 <=? m) && (m <=? 12) && (1 <=? d) && (d <=? 31)
            then Some (y, m, d) else None
        | _, _, _ => None
        end
      else None
  | _ => None
  end.

(** [Date.parse]: a date-only string is midnight UTC of that day.  Every
    other string is NaN here (the engine's readings of date-time strings
    and of free-form dates are left out). *)
Definition Date_parse (s : string) : option Z :=
  match parse_iso_date s with
  | Some (y, m, d) => TimeClip (days_from_civil y m d * msPerDay)
  | None => None
  end.

(** The time value of [new Date(v)]. *)
Definition Date_new (v : JsVal) : option Z :=
  match v with
  | JUndefined => None
  | JNull => Some 0
  | JBool b => Some (if b then 1 else 0)
  | JNum n => TimeClip n
  | JStr s => Date_parse s
  | JDate tv => tv
  | JObj repr => Date_parse repr
  end.

(** [d.setHours(h, m, s)] with all three arguments passed: the new time
    value.  The date is read in local time, its hour, minute and second
    are replaced, its milliseconds kept. *)
Definition setHours (tza : Z) (tv h m s : option Z) : option Z :=
  match tv, h, m, s with
  | Some t, Some h, Some m, Some s =>
      let lt := LocalTime tza t in
      TimeClip (UTC tza (MakeDate (Day lt) (MakeTime h m s (msFromTime lt))))
  | _, _, _, _ => None
  end.

(** [a < b] on two Dates: false as soon as one side is NaN. *)
Definition date_lt (a b : option Z) : bool :=
  match a, b with
  | Some x, Some y => x <? y
  | _, _ => false
  end.

(* ===================================================================== *)
(** ** Exceptions, the document store and the handler monad *)
(* ===================================================================== *)

(** A computation that may throw; [Throw] carries the error's message. *)
Inductive Result (A : Type) : Type :=
| Ok (a : A)
| Throw (msg : string).
Arguments Ok {A} a.
Arguments Throw {A} msg.

(** An ObjectId is a 12-byte number. *)
Definition ObjectId : Type := N.

Definition hex_val (c : ascii) : option N :=
  let n := N_of_ascii c in
  if (48 <=? n)%N && (n <=? 57)%N then Some (n - 48)%N
  else if (97 <=? n)%N && (n <=? 102)%N then Some (n - 87)%N
  else if (65 <=? n)%N && (n <=? 70)%N then Some (n - 55)%N
  else None.

Fixpoint hex_digits (acc : N) (s : string) : option N :=
  match s with
  | EmptyString => Some acc
  | String c rest =>
      match hex_val c with
      | Some d => hex_digits (acc * 16 + d)%N rest
      | None => None
      end
  end.

(** [new ObjectId(s)] on a string: 24 hexadecimal characters, or it
    throws. *)
Definition ObjectId_new (s : string) : Result ObjectId :=
  if Nat.eqb (String.length s) 24
  then match hex_digits 0%N s with
       | Some n => Ok n
       | None => Throw "input must be a 24 character hex string"
       end
  else Throw "input must be a 24 character hex string".

Module Task.
(** A task as the route hands it to [createTask] and as it is stored. *)
Record data : Type := {
  title : JsVal;
  resume : JsVal;
  description : JsVal;
  userId : ObjectId;
  categoryId : JsVal;
  dueDate : JsVal;
  dueTime : JsVal;
  priority : JsVal
}.
Record doc : Type := { _id : ObjectId; fields : data }.
End Task.

Module Category.
Record data : Type := {
  name : JsVal;
  description : JsVal;
  userId : ObjectId
}.
Record doc : Type := { _id : ObjectId; fields : data }.
End Category.

Record Db : Type := {
  tasks : list Task.doc;
  categories : list Category.doc
}.

Inductive Collection : Type := Tasks | Categories.

(** What a handler asks of the storage layer, in order. *)
Inductive Op : Type :=
| Connect
| Find (c : Collection)
| FindOne (c : Collection)
| InsertOne (c : Collection)
| DeleteOne (c : Collection).

Record World : Type := { db : Db; log : list Op }.

Definition M (A : Type) : Type := World -> Result A * World.

Definition ret {A} (a : A) : M A := fun w => (Ok a, w).
Definition throw {A} (msg : string) : M A := fun w => (Throw msg, w).
Definition bind {A B} (c : M A) (k : A -> M B) : M B :=
  fun w => match c w with
           | (Ok a, w') => k a w'
           | (Throw msg, w') => (Throw msg, w')
           end.
Definition liftR {A} (r : Result A) : M A := fun w => (r, w).

Notation "x <- c ;; k" := (bind c (fun x => k))
  (at level 100, c at next level, right associativity).

Definition record_op (o : Op) : M unit :=
  fun w => (Ok tt, {| db := db w; log := log w ++ [o] |}).

(** The server the handlers run on: whether the database answers, the
    clock, the zone, and the id the driver draws for the next insert. *)
Record Env : Type := {
  db_up : bool;
  now : Z;
  tza : Z;
  fresh : ObjectId
}.

(** The functions the routes import from the rest of the application.
    [verifyToken token] is [verifyToken(token).userId], or the error the
    call throws. *)
Record Imports : Type := {
  verifyToken : string -> Result string;
  createTask : Task.data -> Result Task.data;
  createCategory : Category.data -> Result Category.data
}.

Definition dbConnect (env : Env) : M unit :=
  _ <- record_op Connect ;;
  if db_up env then ret tt else throw "database connection failed".

Definition owns_task (uid : ObjectId) (d : Task.doc) : bool :=
  N.eqb (Task.userId (Task.fields d)) uid.

Definition owns_category (uid : ObjectId) (d : Category.doc) : bool :=
  N.eqb (Category.userId (Category.fields d)) uid.

Definition is_category (id uid : ObjectId) (d : Category.doc) : bool :=
  N.eqb (Category._id d) id && owns_category uid d.

(** [find({ userId }).toArray()] *)
Definition find_tasks (uid : ObjectId) : M (list Task.doc) :=
  _ <- record_op (Find Tasks) ;;
  fun w => (Ok (List.filter (owns_task uid) (tasks (db w))), w).

Definition find_categories (uid : ObjectId) : M (list Category.doc) :=
  _ <- record_op (Find Categories) ;;
  fun w => (Ok (List.filter (owns_category uid) (categories (db w))), w).

(** [findOne({ _id, userId })] *)
Definition findOne_category (id uid : ObjectId) : M (option Category.doc) :=
  _ <- record_op (FindOne Categories) ;;
  fun w => (Ok (List.find (is_category id uid) (categories (db w))), w).

(** The list without its first element satisfying [p], when there is
    one. *)
Fixpoint remove_first {A} (p : A -> bool) (l : list A) : option (list A) :=
  match l with
  | [] => None
  | x :: rest =>
      if p x then Some rest
      else match remove_first p rest with
           | Some rest' => Some (x :: rest')
           | None => None
           end
  end.

(** [deleteOne({ _id, userId })]: the result is [deletedCount]. *)
Definition deleteOne_category (id uid : ObjectId) : M Z :=
  _ <- record_op (DeleteOne Categories) ;;
  fun w =>
    match remove_first (is_category id uid) (categories (db w)) with
    | Some rest =>
        (Ok 1, {| db := {| tasks := tasks (db w); categories := rest |};
                  log := log w |})
    | None => (Ok 0, w)
    end.

(** [insertOne(doc)]: the driver gives the document its [_id]; the
    collection refuses an [_id] it already holds. *)
Definition insertOne_task (env : Env) (d : Task.data) : M Task.doc :=
  _ <- record_op (InsertOne Tasks) ;;
  fun w =>
    if existsb (fun x => N.eqb (Task._id x) (fresh env)) (tasks (db w))
    then (Throw "E11000 duplicate key error", w)
    else
      let stored := {| Task._id := fresh env; Task.fields := d |} in
      (Ok stored,
       {| db := {| tasks := tasks (db w) ++ [stored];
                   categories := categories (db w) |};
          log := log w |}).

Definition insertOne_category (env : Env) (d : Category.data)
  : M Category.doc :=
  _ <- record_op (InsertOne Categories) ;;
  fun w =>
    if existsb (fun x => N.eqb (Category._id x) (fresh env))
         (categories (db w))
    then (Throw "E11000 duplicate key error", w)
    else
      let stored := {| Category._id := fresh env; Category.fields := d |} in
      (Ok stored,
       {| db := {| tasks := tasks (db w);
                   categories := categories (db w) ++ [stored] |};
          log := log w |}).

(* ===================================================================== *)
(** ** Requests and responses *)
(* ===================================================================== *)

(** A request: what [req.headers.get("Authorization")] gives ([None]
    without the header) and what [req.json()] gives, an object as a map
    from keys to values ([Throw] when the body is not JSON). *)
Record Request : Type := {
  authorization : option string;
  json : Result (gmap string JsVal)
}.

(** Reading a key of an object: [undefined] when it is absent. *)
Definition field (o : gmap string JsVal) (k : string) : JsVal :=
  default JUndefined (o !! k).

Record TaskView : Type := { task : Task.doc; overdue : JsVal }.

Inductive Body : Type :=
| BFail (message : string)
| BError (message error : string)
| BTasks (l : list TaskView)
| BTask (t : Task.doc)
| BCategories (l : list Category.doc)
| BCategory (c : Category.doc)
| BDone (message : string).

Record Response : Type := { status : Z; body : Body }.

(** [req.headers.get("Authorization")?.split(" ")[1]] *)
Definition header_token (req : Request) : option string :=
  match authorization req with
  | None => None
  | Some h => split_on " " h !! 1%nat
  end.

(** [try { ... } catch (error) { ... 500 }] *)
Definition try_catch (c : M Response) : World -> Response * World :=
  fun w => match c w with
           | (Ok r, w') => (r, w')
           | (Throw msg, w') =>
               ({| status := 500;
                   body := BError "Internal server error" msg |}, w')
           end.

(** The opening shared by every handler: connect, take the token, answer
    401 without one, else verify it and build the user's ObjectId. *)
Definition authenticated (env : Env) (imp : Imports) (req : Request)
    (k : ObjectId -> M Response) : M Response :=
  _ <- dbConnect env ;;
  match header_token req with
  | None | Some EmptyString =>
      ret {| status := 401; body := BFail "No token provided" |}
  | Some token =>
      decoded <- liftR (verifyToken imp token) ;;
      userId <- liftR (ObjectId_new decoded) ;;
      k userId
  end.

(* ===================================================================== *)
(** ** app/api/tasks/route.ts *)
(* ===================================================================== *)

Module TasksRoute.

(** One element of [tasks.map(task => ({ ...task, overdue: ... }))]. *)
Definition with_overdue (currentDate : Z) (t : Task.doc) : TaskView :=
  let dueDate := Task.dueDate (Task.fields t) in
  {| task := t;
     overdue :=
       js_and dueDate
         (JBool (date_lt (Date_new dueDate) (Some currentDate))) |}.

Definition GET (env : Env) (imp : Imports) (req : Request)
  : World -> Response * World :=
  try_catch (authenticated env imp req (fun userId =>
    tasks <- find_tasks userId ;;
    let currentDate := now env in
    let tasksWithOverdueStatus := map (with_overdue currentDate) tasks in
    ret {| status := 200; body := BTasks tasksWithOverdueStatus |})).

(** [const [hours, minutes] = dueTime.split(":").map(Number)]: a piece
    that is not there is [undefined], NaN as a number. *)
Definition hours_minutes (dueTime : string) : option Z * option Z :=
  let parts := map Number (split_on ":" dueTime) in
  (default None (parts !! 0%nat), default None (parts !! 1%nat)).

(** The block "Process dueDate and dueTime".  [split] exists on strings
    only. *)
Definition processDueDate (tza : Z) (dueDate dueTime : JsVal)
  : Result JsVal :=
  if truthy dueDate then
    let processedDueDate := Date_new dueDate in
    if truthy dueTime then
      match dueTime with
      | JStr s =>
          let '(hours, minutes) := hours_minutes s in
          Ok (JDate (setHours tza processedDueDate hours minutes (Some 0)))
      | _ => Throw "dueTime.split is not a function"
      end
    else
      Ok (JDate (setHours tza processedDueDate (Some 23) (Some 59) (Some 0)))
  else Ok JUndefined.

(** [{ ...newTask, dueDate: newTask.dueDate || null,
       dueTime: newTask.dueTime || null }] *)
Definition response_task (t : Task.doc) : Task.doc :=
  let f := Task.fields t in
  {| Task._id := Task._id t;
     Task.fields :=
       {| Task.title := Task.title f;
          Task.resume := Task.resume f;
          Task.description := Task.description f;
          Task.userId := Task.userId f;
          Task.categoryId := Task.categoryId f;
          Task.dueDate := js_or (Task.dueDate f) JNull;
          Task.dueTime := js_or (Task.dueTime f) JNull;
          Task.priority := Task.priority f |} |}.

Definition POST (env : Env) (imp : Imports) (req : Request)
  : World -> Response * World :=
  try_catch (authenticated env imp req (fun userId =>
    o <- liftR (json req) ;;
    let title := field o "title" in
    let resume := field o "resume" in
    let description := field o "description" in
    let dueDate := field o "dueDate" in
    let dueTime := field o "dueTime" in
    let priority := field o "priority" in
    if negb (truthy title) || negb (truthy resume) then
      ret {| status := 400; body := BFail "Title and resume are required" |}
    else
      processedDueDate <- liftR (processDueDate (tza env) dueDate dueTime) ;;
      newTask <- liftR (createTask imp
        {| Task.title := title;
           Task.resume := resume;
           Task.description := description;
           Task.userId := userId;
           Task.categoryId := JUndefined;
           Task.dueDate := processedDueDate;
           Task.dueTime := js_or dueTime JUndefined;
           Task.priority := priority |}) ;;
      stored <- insertOne_task env newTask ;;
      ret {| status := 201; body := BTask (response_task stored) |})).

End TasksRoute.

(* ===================================================================== *)
(** ** app/api/categories/route.ts *)
(* ===================================================================== *)

Module CategoriesRoute.

Definition GET (env : Env) (imp : Imports) (req : Request)
  : World -> Response * World :=
  try_catch (authenticated env imp req (fun userId =>
    categories <- find_categories userId ;;
    ret {| status := 200; body := BCategories categories |})).

Definition POST (env : Env) (imp : Imports) (req : Request)
  : World -> Response * World :=
  try_catch (authenticated env imp req (fun userId =>
    o <- liftR (json req) ;;
    let name := field o "name" in
    let description := field o "description" in
    if negb (truthy name) then
      ret {| status := 400; body := BFail "Category name is required" |}
    else
      newCategory <- liftR (createCategory imp
        {| Category.name := name;
           Category.description := description;
           Category.userId := userId |}) ;;
      stored <- insertOne_category env newCategory ;;
      ret {| status := 201; body := BCategory stored |})).

End CategoriesRoute.

(* ===================================================================== *)
(** ** app/api/categories/[id]/route.ts *)
(* ===================================================================== *)

Module CategoryRoute.

Definition not_found : Response :=
  {| status := 404;
     body := BFail "Category not found or does not belong to the user" |}.

(** [id] is [params.id], the path segment. *)
Definition GET (env : Env) (imp : Imports) (req : Request) (id : string)
  : World -> Response * World :=
  try_catch (authenticated env imp req (fun userId =>
    oid <- liftR (ObjectId_new id) ;;
    category <- findOne_category oid userId ;;
    match category with
    | None => ret not_found
    | Some c => ret {| status := 200; body := BCategory c |}
    end)).

Definition DELETE (env : Env) (imp : Imports) (req : Request) (id : string)
  : World -> Response * World :=
  try_catch (authenticated env imp req (fun userId =>
    oid <- liftR (ObjectId_new id) ;;
    deletedCount <- deleteOne_category oid userId ;;
    if deletedCount =? 0 then ret not_found
    else ret {| status := 200;
                body := BDone "Category deleted successfully" |})).

End CategoryRoute.

(* ===================================================================== *)
(** ** TodoForm.tsx: handleSaveTask *)
(* ===================================================================== *)

Module TodoForm.

(** The component's state when Save is pressed; [task_id] is
    [task?._id]. *)
Record State : Type := {
  taskName : string;
  resume : string;
  description : string;
  selectedCategoryId : option string;
  priority : string;
  dateInput : string;
  timeInput : string;
  task_id : option string
}.

(** A call of [apiFetch]. *)
Record ApiCall : Type := {
  url : string;
  method : string;
  payload : gmap string JsVal
}.

Definition taskPayload (st : State) : gmap string JsVal :=
  <["title" := JStr (taskName st)]>
  (<["resume" := JStr (resume st)]>
  (<["description" := JStr (description st)]>
  (<["categoryId" := match selectedCategoryId st with
                     | Some c => JStr c
                     | None => JNull
                     end]>
  (<["priority" := JStr (priority st)]>
  (<["dueDate" := JStr (dateInput st)]>
  (<["dueTime" := JStr (timeInput st)]> ∅)))))).

(** The errors the function collects, keyed by input. [t] is the
    translation function. *)
Definition newErrors (t : string -> string) (st : State)
  : gmap string string :=
  let e0 : gmap string string := ∅ in
  let e1 := if is_empty_string (taskName st)
            then <["taskName" := t "task.name" +:+ " " +:+ t "task.required"]> e0
            else e0 in
  let e2 := if is_empty_string (resume st)
            then <["resume" := t "task.resume" +:+ " " +:+ t "task.required"]> e1
            else e1 in
  if negb (is_empty_string (timeInput st)) && is_empty_string (dateInput st)
  then <["dateInput" :=
           t "task.due_date" +:+ " " +:+ t "task.required_if_time"]> e2
  else e2.

(** The [errors] state it sets and the request it sends, if any.
    [if (task?._id)] tests the id for truthiness: without a task, and
    with a task whose id is the empty string, the request is the POST. *)
Definition handleSaveTask (t : string -> string) (st : State)
  : gmap string string * option ApiCall :=
  let errs := newErrors t st in
  if bool_decide (0 < size errs)%nat then (errs, None)
  else
    (∅,
     Some match task_id st with
          | None | Some EmptyString =>
              {| url := "/api/tasks"; method := "POST";
                 payload := taskPayload st |}
          | Some id =>
              {| url := "/api/tasks/" +:+ id; method := "PUT";
                 payload := taskPayload st |}
          end).

End TodoForm.

(* ===================================================================== *)
(** ** The imported functions *)
(* ===================================================================== *)

Definition priorities : list string :=
  ["highest"; "high"; "medium"; "low"; "lowest"].

Definition is_priority (v : JsVal) : bool :=
  match v with
  | JStr p => bool_decide (p ∈ priorities)
  | _ => false
  end.

(** Modelled from the spec: models/Task.ts ([createTask]) is not among the
    sources.  It is given the two rules of section 4.3 that the route
    does not apply itself: "if dueTime present and dueDate absent, fail"
    ("due date required when a time is set"), and "Priority defaults to
    medium if not supplied; must otherwise be one of the 5 enumerated
    values -- reject unknown values".  Every other field is kept as
    passed, [ownerId] being the caller's [userId]. *)
Definition createTask_spec (d : Task.data) : Result Task.data :=
  if truthy (Task.dueTime d) && negb (truthy (Task.dueDate d))
  then Throw "due date required when a time is set"
  else
    match Task.priority d with
    | JUndefined =>
        Ok {| Task.title := Task.title d;
              Task.resume := Task.resume d;
              Task.description := Task.description d;
              Task.userId := Task.userId d;
              Task.categoryId := Task.categoryId d;
              Task.dueDate := Task.dueDate d;
              Task.dueTime := Task.dueTime d;
              Task.priority := JStr "medium" |}
    | p => if is_priority p then Ok d
           else Throw "priority must be one of the enumerated values"
    end.

(** Modelled from the spec: models/Category.ts ([createCategory]) is not
    among the sources.  Section 4.2: the new record has the given name and
    description and [ownerId = userId]. *)
Definition createCategory_spec (d : Category.data) : Result Category.data :=
  Ok d.

Definition alice_hex : string := "aaaaaaaaaaaaaaaaaaaaaaaa".
Definition bob_hex : string := "bbbbbbbbbbbbbbbbbbbbbbbb".

(** Modelled from the spec: lib/auth.ts ([verifyToken]) is not among the
    sources.  Section 4.1: [verify] returns the user's identifier or
    fails.  This verifier knows two credentials. *)
Definition verifyToken_two_users (token : string) : Result string :=
  if String.eqb token "alice-token" then Ok alice_hex
  else if String.eqb token "bob-token" then Ok bob_hex
  else Throw "invalid token".

Definition spec_imports : Imports :=
  {| verifyToken := verifyToken_two_users;
     createTask := createTask_spec;
     createCategory := createCategory_spec |}.

(* ===================================================================== *)
(** ** The task operations by id *)
(* ===================================================================== *)

(** The four kinds of failure of section 7 of the spec. *)
Inductive ServiceError : Type :=
| Unauthenticated
| ValidationError (field : string)
| NotFound
| InternalError.

Module TaskService.

Definition is_task (id uid : ObjectId) (d : Task.doc) : bool :=
  N.eqb (Task._id d) id && owns_task uid d.

(** The list with its first element satisfying [p] replaced by [x]. *)
Fixpoint replace_first {A} (p : A -> bool) (x : A) (l : list A) : list A :=
  match l with
  | [] => []
  | y :: rest => if p y then x :: rest else y :: replace_first p x rest
  end.

(** Modelled from the spec: the task delete route
    (app/api/tasks/[id]/route.ts) is not among the sources.  Section 4.3:
    "delete(userId, taskId) -> (): ownership-or-absence NotFound rule;
    removes the record"; the rule is that of section 4.2, NotFound "if no
    [record] with that id exists or exists but belongs to a different
    user", applied as one match on id and owner (section 5). *)
Definition delete (userId taskId : ObjectId) (d : Db) : ServiceError + Db :=
  match remove_first (is_task taskId userId) (tasks d) with
  | Some rest => inr {| tasks := rest; categories := categories d |}
  | None => inl NotFound
  end.

(** Modelled from the spec: the task update route
    (app/api/tasks/[id]/route.ts) is not among the sources.  Section 4.3:
    update "fails with NotFound under the ownership-or-absence rule
    (section 4.2 pattern) before validation".  What comes after, "the
    same validation and composition rules as create" and the full
    replacement of the fields, is [revise]: from the stored task and the
    input it gives the new fields or the failure.  The id and the owner
    are kept ("ownerId: immutable, set at creation"). *)
Definition update
    (revise : Task.doc -> gmap string JsVal -> ServiceError + Task.data)
    (userId taskId : ObjectId) (input : gmap string JsVal) (d : Db)
  : ServiceError + (Task.doc * Db) :=
  match List.find (is_task taskId userId) (tasks d) with
  | None => inl NotFound
  | Some old =>
      match revise old input with
      | inl e => inl e
      | inr f =>
          let task :=
            {| Task._id := Task._id old;
               Task.fields :=
                 {| Task.title := Task.title f;
                    Task.resume := Task.resume f;
                    Task.description := Task.description f;
                    Task.userId := Task.userId (Task.fields old);
                    Task.categoryId := Task.categoryId f;
                    Task.dueDate := Task.dueDate f;
                    Task.dueTime := Task.dueTime f;
                    Task.priority := Task.priority f |} |} in
          inr (task,
               {| tasks := replace_first (is_task taskId userId) task
                             (tasks d);
                  categories := categories d |})
      end
  end.

End TaskService.

(* ===================================================================== *)
(** ** The API surface and the vocabulary of the statements *)
(* ===================================================================== *)

(** The six endpoints the route files export. *)
Inductive Endpoint : Type :=
| GET_tasks
| POST_tasks
| GET_categories
| POST_categories
| GET_category (id : string)
| DELETE_category (id : string).

Definition serve (env : Env) (imp : Imports) (e : Endpoint) (req : Request)
  : World -> Response * World :=
  match e with
  | GET_tasks => TasksRoute.GET env imp req
  | POST_tasks => TasksRoute.POST env imp req
  | GET_categories => CategoriesRoute.GET env imp req
  | POST_categories => CategoriesRoute.POST env imp req
  | GET_category id => CategoryRoute.GET env imp req id
  | DELETE_category id => CategoryRoute.DELETE env imp req id
  end.

(** The world once [dbConnect] has answered. *)
Definition connected (w : World) : World :=
  {| db := db w; log := log w ++ [Connect] |}.

(** The same store, with more storage requests on record. *)
Definition logged (w : World) (ops : list Op) : World :=
  {| db := db w; log := log w ++ ops |}.

(** The request carries no credential: no header, a header without a
    second piece, or an empty second piece. *)
Definition no_token (req : Request) : Prop :=
  header_token req = None \/ header_token req = Some "".

(** The request carries a credential that the verifier maps to user
    [u]. *)
Definition signed_in (imp : Imports) (req : Request) (u : ObjectId) : Prop :=
  exists token hex,
    header_token req = Some token /\ token <> "" /\
    verifyToken imp token = Ok hex /\ ObjectId_new hex = Ok u.

(** The request carries a credential that the verifier rejects. *)
Definition rejected (imp : Imports) (req : Request) (msg : string) : Prop :=
  exists token,
    header_token req = Some token /\ token <> "" /\
    verifyToken imp token = Throw msg.

(** A collection holds each [_id] once. *)
Definition unique_ids (d : Db) : Prop :=
  List.NoDup (map Task._id (tasks d)) /\
  List.NoDup (map Category._id (categories d)).

Definition unauthorized : Response :=
  {| status := 401; body := BFail "No token provided" |}.

Definition server_error (msg : string) : Response :=
  {| status := 500; body := BError "Internal server error" msg |}.

(** A body key that is absent or holds the empty string. *)
Definition empty_or_absent (o : gmap string JsVal) (k : string) : Prop :=
  o !! k = None \/ o !! k = Some (JStr "").

Definition is_space (c : ascii) : bool :=
  let n := N_of_ascii c in
  (n =? 32)%N || (n =? 9)%N || (n =? 10)%N || (n =? 13)%N.

Fixpoint ws_split (s : string) : string * list string :=
  match s with
  | EmptyString => (EmptyString, [])
  | String c rest =>
      let '(w, ws) := ws_split rest in
      if is_space c
      then (EmptyString, if is_empty_string w then ws else w :: ws)
      else (String c w, ws)
  end.

(** The whitespace-separated words of a string, in the usual sense: the
    maximal runs of characters that are not blanks.  This definition
    follows the wording of the statement it is compared with, not the
    source. *)
Definition ws_words (s : string) : list string :=
  let '(w, ws) := ws_split s in
  if is_empty_string w then ws else w :: ws.

Definition has_space (s : string) : bool :=
  existsb (fun c => Ascii.eqb c " ") (list_ascii_of_string s).

(** Fixtures for the concrete runs. *)
Definition empty_world : World :=
  {| db := {| tasks := []; categories := [] |}; log := [] |}.

Definition utc_server : Env :=
  {| db_up := true; now := 1736500000000; tza := 0; fresh := 1%N |}.

Definition bearer (token : string) (o : gmap string JsVal) : Request :=
  {| authorization := Some ("Bearer " +:+ token); json := Ok o |}.

Definition alice : ObjectId := 52818775009509558395695966890%N.
Definition bob : ObjectId := 58100652510460514235265563579%N.

Definition work_category : Category.doc :=
  {| Category._id := 1%N;
     Category.fields :=
       {| Category.name := JStr "Work";
          Category.description := JUndefined;
          Category.userId := alice |} |}.

Definition milk_task : Task.doc :=
  {| Task._id := 2%N;
     Task.fields :=
       {| Task.title := JStr "Buy milk";
          Task.resume := JStr "grocery";
          Task.description := JUndefined;
          Task.userId := alice;
          Task.categoryId := JUndefined;
          Task.dueDate := JUndefined;
          Task.dueTime := JUndefined;
          Task.priority := JStr "medium" |} |}.

(** A store in which Alice owns one category and one task. *)
Definition alice_world : World :=
  {| db := {| tasks := [milk_task]; categories := [work_category] |};
     log := [] |}.

Definition hex_1 : string := "000000000000000000000001".
Definition hex_9 : string := "000000000000000000000009".

Definition with_header (h : string) : Request :=
  {| authorization := Some h; json := Ok ∅ |}.

Definition no_header : Request :=
  {| authorization := None; json := Ok ∅ |}.

(** The form with a name and a summary, and nothing else filled in. *)
Definition blank_form : TodoForm.State :=
  {| TodoForm.taskName := "Buy milk";
     TodoForm.resume := "grocery";
     TodoForm.description := "";
     TodoForm.selectedCategoryId := None;
     TodoForm.priority := "medium";
     TodoForm.dateInput := "";
     TodoForm.timeInput := "";
     TodoForm.task_id := None |}.

Definition untitled_form : TodoForm.State :=
  {| TodoForm.taskName := "";
     TodoForm.resume := "grocery";
     TodoForm.description := "";
     TodoForm.selectedCategoryId := None;
     TodoForm.priority := "medium";
     TodoForm.dateInput := "";
     TodoForm.timeInput := "";
     TodoForm.task_id := None |}.

Definition time_only_form : TodoForm.State :=
  {| TodoForm.taskName := "Buy milk";
     TodoForm.resume := "grocery";
     TodoForm.description := "";
     TodoForm.selectedCategoryId := None;
     TodoForm.priority := "medium";
     TodoForm.dateInput := "";
     TodoForm.timeInput := "14:30";
     TodoForm.task_id := None |}.

(** The imports with the constructors as the spec describes them and any
    verifier. *)
Definition imports_with (verify : string -> Result string) : Imports :=
  {| verifyToken := verify;
     createTask := createTask_spec;
     createCategory := createCategory_spec |}.

Definition time_only_body : gmap string JsVal :=
  {[ "title" := JStr "Buy milk"; "resume" := JStr "grocery";
     "dueTime" := JStr "14:30" ]}.

Definition urgent_body : gmap string JsVal :=
  {[ "title" := JStr "Buy milk"; "resume" := JStr "grocery";
     "priority" := JStr "urgent" ]}.

Definition untitled_body : gmap string JsVal :=
  {[ "title" := JStr ""; "resume" := JStr "grocery" ]}.

Definition unsummarised_body : gmap string JsVal :=
  {[ "title" := JStr "Buy milk"; "resume" := JStr "" ]}.

Definition milk_body : gmap string JsVal :=
  {[ "title" := JStr "Buy milk"; "resume" := JStr "grocery" ]}.

(** A server five hours west of UTC. *)
Definition western_server : Env :=
  {| db_up := true; now := 1736500000000; tza := -18000000; fresh := 1%N |}.

Definition dated_body : gmap string JsVal :=
  {[ "title" := JStr "Buy milk"; "resume" := JStr "grocery";
     "dueDate" := JStr "2025-01-10"; "dueTime" := JStr "14:30" ]}.

(** The UTC server about to insert under the id [n]. *)
Definition server_next (n : ObjectId) : Env :=
  {| db_up := true; now := 1736500000000; tza := 0; fresh := n |}.

(** Scenario 3 of the spec: create a category, create a task that refers
    to it, delete the category, list the tasks. *)
Definition work_body : gmap string JsVal := {[ "name" := JStr "Work" ]}.

Definition filed_body : gmap string JsVal :=
  {[ "title" := JStr "Buy milk"; "resume" := JStr "grocery";
     "categoryId" := JStr hex_1 ]}.

Definition after_category : World :=
  snd (CategoriesRoute.POST (server_next 1%N) spec_imports
         (bearer "alice-token" work_body) empty_world).

Definition after_task : World :=
  snd (TasksRoute.POST (server_next 2%N) spec_imports
         (bearer "alice-token" filed_body) after_category).

Definition after_delete : World :=
  snd (CategoryRoute.DELETE (server_next 3%N) spec_imports
         (bearer "alice-token" ∅) hex_1 after_task).

Definition listed_categoryIds (r : Response) : list JsVal :=
  match body r with
  | BTasks l => map (fun v => Task.categoryId (Task.fields (task v))) l
  | _ => []
  end.

(** The worlds the server can be in: the empty store, and whatever any
    sequence of requests makes of it. *)
Inductive reachable : World -> Prop :=
| reach_start : reachable empty_world
| reach_serve env imp e req w :
    reachable w -> reachable (snd (serve env imp e req w)).

(** A revision that keeps the stored fields, for the runs of
    [TaskService.update]. *)
Definition keep_fields (old : Task.doc) (input : gmap string JsVal)
  : ServiceError + Task.data :=
  inr (Task.fields old).

(* ===================================================================== *)
(** ** app/tasks/page.tsx: the priority filter *)
(* ===================================================================== *)

Module TasksPage.

(** [toLowerCase] on one code unit below U+0100: the letters A-Z and the
    accented capitals U+00C0-U+00DE (the multiplication sign apart) move
    down by 32. *)
Definition toLowerCase_unit (c : ascii) : ascii :=
  let n := N_of_ascii c in
  if ((65 <=? n)%N && (n <=? 90)%N)
     || ((192 <=? n)%N && (n <=? 222)%N && negb (n =? 215)%N)
  then ascii_of_N (n + 32) else c.

Fixpoint toLowerCase (s : string) : string :=
  match s with
  | EmptyString => EmptyString
  | String c rest => String (toLowerCase_unit c) (toLowerCase rest)
  end.

(** [l.includes(x)] on strings. *)
Definition includes_string (l : list string) (x : string) : bool :=
  existsb (String.eqb x) l.

(** [filteredTasks]; [priority] reads a task's priority. *)
Definition filteredTasks {T} (priority : T -> string) (tasks : list T)
    (selectedPriorities : list string) : list T :=
  List.filter
    (fun task =>
       if (0 <? length selectedPriorities)%nat
       then includes_string selectedPriorities (toLowerCase (priority task))
       else true)
    tasks.

Definition clearFilters : list string := [].

(** The update that [onPriorityChange] passes to
    [setSelectedPriorities]. *)
Definition onPriorityChange (priority : string) (prevPriorities : list string)
  : list string :=
  if includes_string prevPriorities priority
  then List.filter (fun p => negb (String.eqb p priority)) prevPriorities
  else prevPriorities ++ [priority].

End TasksPage.

(* ===================================================================== *)
(** ** Dashboard.tsx: the token read from the cookies *)
(* ===================================================================== *)

Module Dashboard.

(** [s.split(sep)] for a separator of one character or more: the pieces
    between successive occurrences of [sep], found from the left.  After
    an occurrence, [skip] counts the characters of it still to pass. *)
Fixpoint split_go (sep : string) (skip : nat) (s : string)
  : string * list string :=
  match s with
  | EmptyString => (EmptyString, [])
  | String c rest =>
      match skip with
      | S k => split_go sep k rest
      | O =>
          if String.prefix sep s
          then let '(piece, pieces) :=
                 split_go sep (String.length sep - 1) rest in
               (EmptyString, piece :: pieces)
          else let '(piece, pieces) := split_go sep 0 rest in
               (String c piece, pieces)
      end
  end.

Definition split (sep s : string) : list string :=
  let '(piece, pieces) := split_go sep 0 s in piece :: pieces.

(** [document.cookie.split('; ')
      .find(row => row.startsWith('authToken='))?.split('=')[1]] *)
Definition token (cookie : string) : option string :=
  match List.find (String.prefix "authToken=") (split "; " cookie) with
  | Some row => split_on "=" row !! 1%nat
  | None => None
  end.

(** The Authorization header of the request [fetchUser] sends; [None]
    when it sends none. *)
Definition fetchUser_authorization (cookie : string) : option string :=
  match token cookie with
  | None | Some EmptyString => None
  | Some t => Some ("Bearer " +:+ t)
  end.

End Dashboard.

(* ===================================================================== *)
(** ** TodoForm.tsx: the category dropdown *)
(* ===================================================================== *)

Module CategoryDropdown.

Record Category : Type := { _id : string; name : string }.

(** [options={categories.map((cat) => cat.name)}] *)
Definition options (categories : list Category) : list string :=
  map name categories.

(** The [onSelect] handler: the new [selectedCategoryId], [None] for
    null. *)
Definition onSelect (categories : list Category) (value : string)
  : option string :=
  match List.find (fun cat => String.eqb (name cat) value) categories with
  | Some selectedCategory =>
      if is_empty_string (_id selectedCategory) then None
      else Some (_id selectedCategory)
  | None => None
  end.

(** The [selectedValue] prop. *)
Definition selectedValue (t : string -> string)
    (categories : list Category) (selectedCategoryId : option string)
  : string :=
  match selectedCategoryId with
  | None | Some EmptyString => t "task.select_category"
  | Some id =>
      match List.find (fun cat => String.eqb (_id cat) id) categories with
      | Some cat => name cat
      | None => ""
      end
  end.

End CategoryDropdown.

(* ===================================================================== *)
(** ** More vocabulary and fixtures *)
(* ===================================================================== *)

Definition has_char (c : ascii) (s : string) : bool :=
  existsb (fun x => Ascii.eqb x c) (list_ascii_of_string s).

(** The documents of [l] other than the one with id [id]. *)
Definition without_id (id : ObjectId) (l : list Category.doc)
  : list Category.doc :=
  List.filter (fun d => negb (N.eqb (Category._id d) id)) l.

Definition three_categories : list CategoryDropdown.Category :=
  [ {| CategoryDropdown._id := "c1"; CategoryDropdown.name := "Work" |};
    {| CategoryDropdown._id := "c2"; CategoryDropdown.name := "Home" |};
    {| CategoryDropdown._id := "c3"; CategoryDropdown.name := "Errands" |} ].

(** The form as [handleSaveTask] accepts it: a name, a summary, and no
    time without a date. *)
Definition form_ok (st : TodoForm.State) : bool :=
  negb (is_empty_string (TodoForm.taskName st))
  && negb (is_empty_string (TodoForm.resume st))
  && (is_empty_string (TodoForm.timeInput st)
      || negb (is_empty_string (TodoForm.dateInput st))).

(** The request the form sends when it sends one: a PUT to the task's
    own path when a task with a non-empty id is being edited, the POST
    otherwise. *)
Definition form_request (st : TodoForm.State) : TodoForm.ApiCall :=
  match TodoForm.task_id st with
  | None | Some EmptyString =>
      {| TodoForm.url := "/api/tasks"; TodoForm.method := "POST";
         TodoForm.payload := TodoForm.taskPayload st |}
  | Some id =>
      {| TodoForm.url := "/api/tasks/" +:+ id; TodoForm.method := "PUT";
         TodoForm.payload := TodoForm.taskPayload st |}
  end.

(* ===================================================================== *)
(** * Theorems *)
(* ===================================================================== *)

(** The side conditions of the concrete runs: a credential the fixture
    verifier knows, and a store with one document per collection. *)
Ltac known_credential := repeat split; try reflexivity; discriminate.

Ltac one_document_each :=
  split; cbn; (apply NoDup_cons_iff; split; [intros [] | constructor]).

(** ** The library model on known values *)

Example split_bearer : split_on " " "Bearer abc" = ["Bearer"; "abc"].
Proof. reflexivity. Qed.

Example split_two_spaces : split_on " " "Bearer  abc" = ["Bearer"; ""; "abc"].
Proof. reflexivity. Qed.

Example split_time : map Number (split_on ":" "14:30") = [Some 14; Some 30].
Proof. reflexivity. Qed.

Example epoch_day : days_from_civil 1970 1 1 = 0.
Proof. reflexivity. Qed.

Example parse_2025_01_10 : Date_parse "2025-01-10" = Some 1736467200000.
Proof. reflexivity. Qed.

Example alice_id : ObjectId_new alice_hex = Ok alice.
Proof. reflexivity. Qed.

Example bob_id : ObjectId_new bob_hex = Ok bob.
Proof. reflexivity. Qed.

Example ws_words_two_spaces :
  ws_words "Bearer  abc" = ["Bearer"; "abc"].
Proof. reflexivity. Qed.

(** ** The shared opening of the handlers *)

Lemma authenticated_db_down env imp req k w :
  db_up env = false ->
  authenticated env imp req k w
  = (Throw "database connection failed", connected w).
Proof.
  intros Hdb. unfold authenticated, dbConnect, bind, record_op, throw.
  now rewrite Hdb.
Qed.

Lemma authenticated_no_token env imp req k w :
  db_up env = true -> no_token req ->
  authenticated env imp req k w = (Ok unauthorized, connected w).
Proof.
  intros Hdb Hno. unfold authenticated, dbConnect, bind, record_op, ret.
  rewrite Hdb. cbn. now destruct Hno as [-> | ->].
Qed.

Lemma authenticated_signed_in env imp req u k w :
  db_up env = true -> signed_in imp req u ->
  authenticated env imp req k w = k u (connected w).
Proof.
  intros Hdb (token & hex & Htok & Hne & Hver & Hid).
  unfold authenticated, dbConnect, bind, record_op, ret, liftR.
  rewrite Hdb, Htok. cbn.
  destruct token as [| c rest]; [congruence |].
  now rewrite Hver, Hid.
Qed.

Lemma authenticated_rejected env imp req msg k w :
  db_up env = true -> rejected imp req msg ->
  authenticated env imp req k w = (Throw msg, connected w).
Proof.
  intros Hdb (token & Htok & Hne & Hver).
  unfold authenticated, dbConnect, bind, record_op, ret, liftR.
  rewrite Hdb, Htok. cbn.
  destruct token as [| c rest]; [congruence |].
  now rewrite Hver.
Qed.

(** Every handler is [try_catch (authenticated ... k)] for some [k]. *)
Lemma serve_shape env imp e req :
  exists k, serve env imp e req = try_catch (authenticated env imp req k).
Proof. destruct e; cbn; eexists; reflexivity. Qed.

Lemma serve_same_credential env imp e req1 req2 w :
  header_token req1 = header_token req2 -> json req1 = json req2 ->
  serve env imp e req1 w = serve env imp e req2 w.
Proof.
  intros Htok Hjson.
  destruct e; cbn;
    unfold TasksRoute.GET, TasksRoute.POST, CategoriesRoute.GET,
      CategoriesRoute.POST, CategoryRoute.GET, CategoryRoute.DELETE,
      authenticated;
    now rewrite Htok, ?Hjson.
Qed.

Lemma serve_no_token env imp e req w :
  db_up env = true -> no_token req ->
  serve env imp e req w = (unauthorized, connected w).
Proof.
  intros Hdb Hno. destruct (serve_shape env imp e req) as [k ->].
  unfold try_catch. now rewrite authenticated_no_token.
Qed.

Lemma serve_rejected env imp e req msg w :
  db_up env = true -> rejected imp req msg ->
  serve env imp e req w = (server_error msg, connected w).
Proof.
  intros Hdb Hrej. destruct (serve_shape env imp e req) as [k ->].
  unfold try_catch. now rewrite (authenticated_rejected _ _ _ msg).
Qed.

Lemma serve_db_down env imp e req w :
  db_up env = false ->
  serve env imp e req w
  = (server_error "database connection failed", connected w).
Proof.
  intros Hdb. destruct (serve_shape env imp e req) as [k ->].
  unfold try_catch. now rewrite authenticated_db_down.
Qed.

(** ** Splitting the Authorization header *)

Lemma split_on_not_nil sep s : split_on sep s <> [].
Proof.
  destruct s as [| c rest]; cbn; [discriminate |].
  destruct (Ascii.eqb c sep); [discriminate |].
  destruct (split_on sep rest); discriminate.
Qed.

Lemma split_on_single s :
  has_space s = false -> split_on " " s = [s].
Proof.
  unfold has_space.
  induction s as [| c rest IH];
    cbn [existsb list_ascii_of_string split_on]; [reflexivity |].
  intros H. apply orb_false_elim in H as [Hc Hrest].
  rewrite Hc. now rewrite IH.
Qed.

Lemma split_on_scheme s rest :
  has_space s = false ->
  split_on " " (s +:+ " " +:+ rest) = s :: split_on " " rest.
Proof.
  unfold has_space.
  induction s as [| c s' IH]; intros H; [reflexivity |].
  cbn [existsb list_ascii_of_string] in H.
  apply orb_false_elim in H as [Hc Hrest].
  change (String c s' +:+ " " +:+ rest)
    with (String c (s' +:+ " " +:+ rest)).
  cbn [split_on]. now rewrite Hc, IH.
Qed.

Lemma header_token_scheme s rest o :
  has_space s = false ->
  header_token {| authorization := Some (s +:+ " " +:+ rest); json := o |}
  = head (split_on " " rest).
Proof.
  intros H. unfold header_token. cbn [authorization].
  rewrite split_on_scheme by assumption.
  now destruct (split_on " " rest).
Qed.

Lemma header_token_single h o :
  has_space h = false ->
  header_token {| authorization := Some h; json := o |} = None.
Proof.
  intros H. unfold header_token. cbn [authorization].
  now rewrite split_on_single.
Qed.

(** ** Validation in POST /tasks *)

Lemma empty_or_absent_falsy o k :
  empty_or_absent o k -> truthy (field o k) = false.
Proof. unfold field. now intros [-> | ->]. Qed.

Lemma POST_tasks_signed_in env imp req u o w :
  db_up env = true -> signed_in imp req u -> json req = Ok o ->
  TasksRoute.POST env imp req w
  = try_catch
      (if negb (truthy (field o "title")) || negb (truthy (field o "resume"))
       then ret {| status := 400;
                   body := BFail "Title and resume are required" |}
       else
         processedDueDate <-
           liftR (TasksRoute.processDueDate (tza env)
                    (field o "dueDate") (field o "dueTime")) ;;
         newTask <- liftR (createTask imp
           {| Task.title := field o "title";
              Task.resume := field o "resume";
              Task.description := field o "description";
              Task.userId := u;
              Task.categoryId := JUndefined;
              Task.dueDate := processedDueDate;
              Task.dueTime := js_or (field o "dueTime") JUndefined;
              Task.priority := field o "priority" |}) ;;
         stored <- insertOne_task env newTask ;;
         ret {| status := 201;
                body := BTask (TasksRoute.response_task stored) |})
      (connected w).
Proof.
  intros Hdb Hin Hjson. unfold TasksRoute.POST, try_catch.
  rewrite (authenticated_signed_in _ _ _ u) by assumption.
  unfold bind at 1. unfold liftR at 1. now rewrite Hjson.
Qed.

Lemma POST_tasks_missing_field env imp req u o w :
  db_up env = true -> signed_in imp req u -> json req = Ok o ->
  truthy (field o "title") = false \/ truthy (field o "resume") = false ->
  TasksRoute.POST env imp req w
  = ({| status := 400; body := BFail "Title and resume are required" |},
     connected w).
Proof.
  intros Hdb Hin Hjson Hmiss.
  rewrite (POST_tasks_signed_in _ _ _ u o) by assumption.
  destruct Hmiss as [-> | ->]; [reflexivity |].
  now rewrite orb_true_r.
Qed.

(** With both fields present the route goes on to build and insert the
    task: whatever the imported functions do, it answers 201 or 500. *)
Lemma POST_tasks_past_validation env imp req u o w :
  db_up env = true -> signed_in imp req u -> json req = Ok o ->
  truthy (field o "title") = true -> truthy (field o "resume") = true ->
  let r := fst (TasksRoute.POST env imp req w) in
  status r = 201 \/ status r = 500.
Proof.
  intros Hdb Hin Hjson Ht Hr.
  rewrite (POST_tasks_signed_in _ _ _ u o) by assumption.
  rewrite Ht, Hr. cbn [negb orb].
  unfold try_catch, bind, liftR, insertOne_task, record_op, ret.
  destruct (TasksRoute.processDueDate _ _ _); [| now right].
  destruct (createTask imp _); [| now right].
  cbn. destruct (existsb _ _); [now right | now left].
Qed.

(** ** The form *)

Lemma form_blocked t st :
  TodoForm.newErrors t st <> ∅ ->
  TodoForm.handleSaveTask t st = (TodoForm.newErrors t st, None).
Proof.
  intros Hne. unfold TodoForm.handleSaveTask.
  rewrite bool_decide_true; [reflexivity |].
  destruct (decide (size (TodoForm.newErrors t st) = 0%nat)) as [H0 | H0];
    [| lia].
  now apply map_size_empty_iff in H0.
Qed.

Lemma newErrors_dateInput t st :
  TodoForm.timeInput st <> "" -> TodoForm.dateInput st = "" ->
  TodoForm.newErrors t st !! "dateInput"
  = Some (t "task.due_date" +:+ " " +:+ t "task.required_if_time").
Proof.
  intros Htime Hdate. unfold TodoForm.newErrors. rewrite Hdate.
  destruct (TodoForm.timeInput st); [congruence |].
  cbn [is_empty_string negb andb]. apply lookup_insert_eq.
Qed.

Lemma newErrors_taskName t st :
  TodoForm.taskName st = "" ->
  TodoForm.newErrors t st !! "taskName"
  = Some (t "task.name" +:+ " " +:+ t "task.required").
Proof.
  intros Hname. unfold TodoForm.newErrors. rewrite Hname.
  cbn [is_empty_string].
  repeat match goal with
         | |- context [if ?b then _ else _] => destruct b
         end;
    rewrite ?lookup_insert_ne by discriminate; apply lookup_insert_eq.
Qed.

Lemma newErrors_resume t st :
  TodoForm.resume st = "" ->
  TodoForm.newErrors t st !! "resume"
  = Some (t "task.resume" +:+ " " +:+ t "task.required").
Proof.
  intros Hres. unfold TodoForm.newErrors. rewrite Hres.
  cbn [is_empty_string].
  repeat match goal with
         | |- context [if ?b then _ else _] => destruct b
         end;
    rewrite ?lookup_insert_ne by discriminate; apply lookup_insert_eq.
Qed.

Lemma has_key_not_empty (m : gmap string string) k v :
  m !! k = Some v -> m <> ∅.
Proof. intros H ->. now rewrite lookup_empty in H. Qed.

(** ** The store *)

Lemma logged_connected w ops :
  logged (connected w) ops = logged w (Connect :: ops).
Proof. unfold logged, connected. cbn. now rewrite <- app_assoc. Qed.

Lemma remove_first_none {A} (p : A -> bool) l :
  (forall x, In x l -> p x = false) -> remove_first p l = None.
Proof.
  induction l as [| x rest IH]; intros H; [reflexivity |].
  cbn. rewrite (H x) by now left.
  rewrite IH; [reflexivity |]. intros y Hy. apply H. now right.
Qed.

Lemma remove_first_some {A} (p : A -> bool) l l' :
  remove_first p l = Some l' ->
  exists x, In x l /\ p x = true /\ forall y, In y l' -> In y l.
Proof.
  revert l'. induction l as [| x rest IH]; intros l' H; [discriminate |].
  cbn in H. destruct (p x) eqn:Hp.
  - inversion H; subst. exists x. repeat split; [now left | assumption |].
    intros y Hy. now right.
  - destruct (remove_first p rest) as [rest' |] eqn:Hr; [| discriminate].
    inversion H; subst.
    destruct (IH rest' eq_refl) as (z & Hz & Hpz & Hsub).
    exists z. repeat split; [now right | assumption |].
    intros y [-> | Hy]; [now left | right; now apply Hsub].
Qed.

(** Removing the first match from a list without repeated keys removes
    the key altogether. *)
Lemma remove_first_key {A} (key : A -> ObjectId) (p : A -> bool) l l' k :
  List.NoDup (map key l) ->
  (forall x, p x = true -> key x = k) ->
  remove_first p l = Some l' ->
  List.NoDup (map key l') /\ ~ In k (map key l').
Proof.
  intros Hnd Hp. revert l' Hnd.
  induction l as [| x rest IH]; intros l' Hnd H; [discriminate |].
  cbn in H. cbn in Hnd. apply NoDup_cons_iff in Hnd as [Hx Hrest].
  destruct (p x) eqn:Hpx.
  - inversion H; subst. split; [assumption |]. now rewrite <- (Hp x Hpx).
  - destruct (remove_first p rest) as [rest' |] eqn:Hr; [| discriminate].
    inversion H; subst.
    destruct (IH rest' Hrest eq_refl) as [Hnd' Hk].
    destruct (remove_first_some p rest rest' Hr) as (z & Hz & Hpz & Hsub).
    split.
    + cbn. apply NoDup_cons_iff. split; [| assumption].
      intros Hin. apply Hx. apply in_map_iff in Hin as (y & Hy & Hy').
      apply in_map_iff. exists y. split; [assumption | now apply Hsub].
    + cbn. intros [Hk' | Hk']; [| now apply Hk].
      apply Hx. rewrite Hk', <- (Hp z Hpz). now apply in_map.
Qed.

Lemma is_category_id id u c :
  is_category id u c = true -> Category._id c = id.
Proof.
  unfold is_category. intros H. apply andb_prop in H as [H _].
  now apply N.eqb_eq in H.
Qed.

Lemma is_category_foreign id u c :
  Category.userId (Category.fields c) <> u -> is_category id u c = false.
Proof.
  intros H. unfold is_category, owns_category.
  apply N.eqb_neq in H. rewrite H. apply andb_false_r.
Qed.

Lemma is_category_other_id id u c :
  Category._id c <> id -> is_category id u c = false.
Proof.
  intros H. unfold is_category. apply N.eqb_neq in H. now rewrite H.
Qed.

Lemma same_key_same_element {A} (key : A -> ObjectId) l x y :
  List.NoDup (map key l) -> In x l -> In y l -> key x = key y -> x = y.
Proof.
  induction l as [| z rest IH]; intros Hnd Hx Hy Hk; [contradiction |].
  cbn in Hnd. apply NoDup_cons_iff in Hnd as [Hz Hrest].
  destruct Hx as [-> | Hx], Hy as [-> | Hy].
  - reflexivity.
  - exfalso. apply Hz. rewrite Hk. now apply in_map.
  - exfalso. apply Hz. rewrite <- Hk. now apply in_map.
  - now apply IH.
Qed.

(** No document of the collection answers to (id, user) when the one
    document with that id is someone else's, or when there is none. *)
Lemma no_match_foreign cats c u :
  List.NoDup (map Category._id cats) -> In c cats ->
  Category.userId (Category.fields c) <> u ->
  forall d, In d cats -> is_category (Category._id c) u d = false.
Proof.
  intros Hnd Hc Hown d Hd.
  destruct (N.eq_dec (Category._id d) (Category._id c)) as [Heq | Hne].
  - assert (d = c) by (eapply same_key_same_element; eauto).
    subst. now apply is_category_foreign.
  - now apply is_category_other_id.
Qed.

Lemma no_match_absent cats id u :
  ~ In id (map Category._id cats) ->
  forall d, In d cats -> is_category id u d = false.
Proof.
  intros Hid d Hd. apply is_category_other_id. intros Heq. apply Hid.
  rewrite <- Heq. now apply in_map.
Qed.

Lemma find_none_of {A} (p : A -> bool) l :
  (forall x, In x l -> p x = false) -> List.find p l = None.
Proof.
  induction l as [| x rest IH]; intros H; [reflexivity |].
  cbn. rewrite (H x) by now left. apply IH. intros y Hy. apply H. now right.
Qed.

(** ** The handlers once the caller is known *)

Lemma GET_tasks_run env imp req u w :
  db_up env = true -> signed_in imp req u ->
  TasksRoute.GET env imp req w
  = ({| status := 200;
        body := BTasks (map (TasksRoute.with_overdue (now env))
                          (List.filter (owns_task u) (tasks (db w)))) |},
     logged w [Connect; Find Tasks]).
Proof.
  intros Hdb Hin. unfold TasksRoute.GET, try_catch.
  rewrite (authenticated_signed_in _ _ _ u) by assumption.
  unfold find_tasks, bind, record_op, ret. cbn.
  now rewrite <- app_assoc.
Qed.

Lemma GET_categories_run env imp req u w :
  db_up env = true -> signed_in imp req u ->
  CategoriesRoute.GET env imp req w
  = ({| status := 200;
        body := BCategories
                  (List.filter (owns_category u) (categories (db w))) |},
     logged w [Connect; Find Categories]).
Proof.
  intros Hdb Hin. unfold CategoriesRoute.GET, try_catch.
  rewrite (authenticated_signed_in _ _ _ u) by assumption.
  unfold find_categories, bind, record_op, ret. cbn.
  now rewrite <- app_assoc.
Qed.

Lemma GET_category_run env imp req u id oid w :
  db_up env = true -> signed_in imp req u -> ObjectId_new id = Ok oid ->
  CategoryRoute.GET env imp req id w
  = (match List.find (is_category oid u) (categories (db w)) with
     | None => CategoryRoute.not_found
     | Some c => {| status := 200; body := BCategory c |}
     end,
     logged w [Connect; FindOne Categories]).
Proof.
  intros Hdb Hin Hid. unfold CategoryRoute.GET, try_catch.
  rewrite (authenticated_signed_in _ _ _ u) by assumption.
  unfold findOne_category, bind, record_op, ret, liftR. rewrite Hid. cbn.
  unfold logged. rewrite <- app_assoc.
  now destruct (List.find _ _).
Qed.

Lemma DELETE_category_run env imp req u id oid w :
  db_up env = true -> signed_in imp req u -> ObjectId_new id = Ok oid ->
  CategoryRoute.DELETE env imp req id w
  = match remove_first (is_category oid u) (categories (db w)) with
    | Some rest =>
        ({| status := 200; body := BDone "Category deleted successfully" |},
         {| db := {| tasks := tasks (db w); categories := rest |};
            log := log w ++ [Connect; DeleteOne Categories] |})
    | None =>
        (CategoryRoute.not_found, logged w [Connect; DeleteOne Categories])
    end.
Proof.
  intros Hdb Hin Hid. unfold CategoryRoute.DELETE, try_catch.
  rewrite (authenticated_signed_in _ _ _ u) by assumption.
  unfold deleteOne_category, bind, record_op, ret, liftR. rewrite Hid. cbn.
  unfold logged. rewrite <- app_assoc.
  now destruct (remove_first _ _).
Qed.

(** A path segment that is not an ObjectId makes the handler throw. *)
Lemma DELETE_category_malformed env imp req u id msg w :
  db_up env = true -> signed_in imp req u -> ObjectId_new id = Throw msg ->
  CategoryRoute.DELETE env imp req id w = (server_error msg, connected w).
Proof.
  intros Hdb Hin Hid. unfold CategoryRoute.DELETE, try_catch.
  rewrite (authenticated_signed_in _ _ _ u) by assumption.
  unfold bind, liftR. now rewrite Hid.
Qed.

Lemma GET_category_malformed env imp req u id msg w :
  db_up env = true -> signed_in imp req u -> ObjectId_new id = Throw msg ->
  CategoryRoute.GET env imp req id w = (server_error msg, connected w).
Proof.
  intros Hdb Hin Hid. unfold CategoryRoute.GET, try_catch.
  rewrite (authenticated_signed_in _ _ _ u) by assumption.
  unfold bind, liftR. now rewrite Hid.
Qed.

(** Deleting a category never touches the tasks. *)
Lemma DELETE_category_keeps_tasks env imp req id w :
  tasks (db (snd (CategoryRoute.DELETE env imp req id w))) = tasks (db w).
Proof.
  unfold CategoryRoute.DELETE, try_catch, authenticated, dbConnect,
    deleteOne_category, bind, record_op, ret, throw, liftR.
  cbn. destruct (db_up env); [| reflexivity]. cbn.
  destruct (header_token req) as [[| c token] |]; try reflexivity.
  destruct (verifyToken imp _); [| reflexivity].
  destruct (ObjectId_new _); [| reflexivity].
  destruct (ObjectId_new id); [| reflexivity]. cbn.
  destruct (remove_first _ _); cbn; reflexivity.
Qed.

Lemma signed_in_bearer_alice o : signed_in spec_imports (bearer "alice-token" o) alice.
Proof.
  exists "alice-token", alice_hex.
  known_credential.
Qed.

Lemma signed_in_bearer_bob o : signed_in spec_imports (bearer "bob-token" o) bob.
Proof.
  exists "bob-token", bob_hex. known_credential.
Qed.

Lemma unique_ids_alice_world : unique_ids (db alice_world).
Proof. one_document_each. Qed.

(* ===================================================================== *)
(** ** C1: ownership isolation *)
(* ===================================================================== *)

Lemma is_task_id id u t :
  TaskService.is_task id u t = true -> Task._id t = id.
Proof.
  unfold TaskService.is_task. intros H. apply andb_prop in H as [H _].
  now apply N.eqb_eq in H.
Qed.

Lemma no_task_match_foreign l t u :
  List.NoDup (map Task._id l) -> In t l ->
  Task.userId (Task.fields t) <> u ->
  forall d, In d l -> TaskService.is_task (Task._id t) u d = false.
Proof.
  intros Hnd Ht Hown d Hd. unfold TaskService.is_task, owns_task.
  destruct (N.eqb_spec (Task._id d) (Task._id t)) as [Heq | Hne];
    [| reflexivity].
  assert (d = t) by (eapply same_key_same_element; eauto).
  subst. cbn. now apply N.eqb_neq.
Qed.

Lemma no_task_match_absent l id u :
  ~ In id (map Task._id l) ->
  forall d, In d l -> TaskService.is_task id u d = false.
Proof.
  intros Hid d Hd. unfold TaskService.is_task.
  destruct (N.eqb_spec (Task._id d) id) as [Heq | Hne]; [| reflexivity].
  exfalso. apply Hid. rewrite <- Heq. now apply in_map.
Qed.

(** C1. Let user [B] be signed in, and let the store hold each id once.
    A task or a category whose owner is not [B] is absent from B's lists;
    B's GET and DELETE on such a category's id both answer 404 with the
    fixed "not found" body and leave the store as it was; and they answer
    exactly the same, with the same storage requests, for an id that no
    category has.  On such a task's id, B's update and delete fail with
    NotFound, as they do for an id that no task has, whatever the input
    of the update.  (The lists and the category's GET and DELETE are the
    routes; the update and the delete of a task are [TaskService], the
    spec's description of the routes whose source is not at hand.) *)
Theorem ownership_isolation env imp req B w :
  db_up env = true -> signed_in imp req B -> unique_ids (db w) ->
  (forall t, In t (tasks (db w)) -> Task.userId (Task.fields t) <> B ->
     (exists l,
        TasksRoute.GET env imp req w
        = ({| status := 200; body := BTasks l |},
           logged w [Connect; Find Tasks]) /\
        ~ In t (map task l)) /\
     (forall revise input,
        TaskService.update revise B (Task._id t) input (db w)
        = inl NotFound) /\
     TaskService.delete B (Task._id t) (db w) = inl NotFound) /\
  (forall id, ~ In id (map Task._id (tasks (db w))) ->
     (forall revise input,
        TaskService.update revise B id input (db w) = inl NotFound) /\
     TaskService.delete B id (db w) = inl NotFound) /\
  (forall c, In c (categories (db w)) ->
     Category.userId (Category.fields c) <> B ->
     (exists l,
        CategoriesRoute.GET env imp req w
        = ({| status := 200; body := BCategories l |},
           logged w [Connect; Find Categories]) /\
        ~ In c l) /\
     (forall id, ObjectId_new id = Ok (Category._id c) ->
        CategoryRoute.GET env imp req id w
        = (CategoryRoute.not_found, logged w [Connect; FindOne Categories]) /\
        CategoryRoute.DELETE env imp req id w
        = (CategoryRoute.not_found,
           logged w [Connect; DeleteOne Categories]))) /\
  (forall id oid, ObjectId_new id = Ok oid ->
     ~ In oid (map Category._id (categories (db w))) ->
     CategoryRoute.GET env imp req id w
     = (CategoryRoute.not_found, logged w [Connect; FindOne Categories]) /\
     CategoryRoute.DELETE env imp req id w
     = (CategoryRoute.not_found, logged w [Connect; DeleteOne Categories])).
Proof.
  intros Hdb Hin [Hndt Hnd]. split; [| split; [| split]].
  - intros t Ht Hown. split; [| split].
    + eexists. split; [apply (GET_tasks_run _ _ _ B); assumption |].
      rewrite map_map. cbn. rewrite map_id.
      intros Hl. apply filter_In in Hl as [_ Hl].
      unfold owns_task in Hl. now apply N.eqb_eq in Hl.
    + intros revise input. unfold TaskService.update.
      rewrite find_none_of; [reflexivity |].
      now apply no_task_match_foreign.
    + unfold TaskService.delete.
      rewrite remove_first_none; [reflexivity |].
      now apply no_task_match_foreign.
  - intros id Habs. split.
    + intros revise input. unfold TaskService.update.
      rewrite find_none_of; [reflexivity |].
      now apply no_task_match_absent.
    + unfold TaskService.delete.
      rewrite remove_first_none; [reflexivity |].
      now apply no_task_match_absent.
  - intros c Hc Hown. split.
    + eexists. split; [apply (GET_categories_run _ _ _ B); assumption |].
      intros Hl. apply filter_In in Hl as [_ Hl].
      unfold owns_category in Hl. now apply N.eqb_eq in Hl.
    + intros id Hid. split.
      * rewrite (GET_category_run _ _ _ B id (Category._id c))
          by assumption.
        rewrite find_none_of; [reflexivity |].
        now apply no_match_foreign.
      * rewrite (DELETE_category_run _ _ _ B id (Category._id c))
          by assumption.
        rewrite remove_first_none; [reflexivity |].
        now apply no_match_foreign.
  - intros id oid Hid Habs. split.
    + rewrite (GET_category_run _ _ _ B id oid) by assumption.
      rewrite find_none_of; [reflexivity |].
      now apply no_match_absent.
    + rewrite (DELETE_category_run _ _ _ B id oid) by assumption.
      rewrite remove_first_none; [reflexivity |].
      now apply no_match_absent.
Qed.

(** Bob asks for Alice's category by its id, then for an id nobody has:
    the two answers are the same 404; and his update and his delete of
    Alice's task fail with NotFound, while hers go through. *)
Lemma ownership_isolation_witness :
  CategoryRoute.GET utc_server spec_imports (bearer "bob-token" ∅) hex_1
    alice_world
  = CategoryRoute.GET utc_server spec_imports (bearer "bob-token" ∅) hex_9
      alice_world
  /\ fst (CategoryRoute.DELETE utc_server spec_imports (bearer "bob-token" ∅)
            hex_1 alice_world)
     = CategoryRoute.not_found
  /\ TaskService.update keep_fields bob 2%N ∅ (db alice_world) = inl NotFound
  /\ TaskService.delete bob 2%N (db alice_world) = inl NotFound
  /\ TaskService.delete alice 2%N (db alice_world)
     = inr {| tasks := []; categories := [work_category] |}.
Proof.
  destruct (ownership_isolation utc_server spec_imports
              (bearer "bob-token" ∅) bob alice_world)
    as (Htask & _ & Hcat & Habsent).
  - reflexivity.
  - exists "bob-token", bob_hex. known_credential.
  - one_document_each.
  - destruct (Hcat work_category) as (_ & Hid).
    + now left.
    + discriminate.
    + destruct (Hid hex_1 eq_refl) as [Hget Hdel].
      destruct (Habsent hex_9 9%N eq_refl) as [Hget' _].
      * cbn. intros [H | []]. discriminate.
      * destruct (Htask milk_task) as (_ & Hupd & Hdelt).
        -- now left.
        -- discriminate.
        -- rewrite Hget, Hget', Hdel.
           split; [reflexivity |]. split; [reflexivity |].
           split; [apply (Hupd keep_fields ∅) |].
           split; [exact Hdelt | reflexivity].
Defined.

(** Deleting a task again: in a store that holds each id once, after a
    delete that went through, the same delete by anyone fails with
    NotFound. *)
Lemma TaskService_delete_again d u id d' :
  List.NoDup (map Task._id (tasks d)) ->
  TaskService.delete u id d = inr d' ->
  forall v, TaskService.delete v id d' = inl NotFound.
Proof.
  unfold TaskService.delete. intros Hnd Hdel v.
  destruct (remove_first _ (tasks d)) as [rest |] eqn:Hrm; [| discriminate].
  inversion Hdel; subst. cbn [tasks].
  destruct (remove_first_key Task._id _ _ _ id Hnd (is_task_id id u) Hrm)
    as [_ Hgone].
  rewrite remove_first_none; [reflexivity |].
  now apply no_task_match_absent.
Qed.

(** The owner the routes filter on is the caller of the creating request,
    when the constructors keep the [userId] they are given. *)
Lemma POST_categories_owner env verify req u o w r w' :
  db_up env = true -> signed_in (imports_with verify) req u ->
  json req = Ok o ->
  CategoriesRoute.POST env (imports_with verify) req w = (r, w') ->
  status r = 201 ->
  exists c, categories (db w') = (categories (db w) ++ [c])%list /\
            tasks (db w') = tasks (db w) /\
            Category.userId (Category.fields c) = u /\
            Category._id c = fresh env /\
            ~ In (fresh env) (map Category._id (categories (db w))).
Proof.
  intros Hdb Hin Hjson Hrun Hst.
  unfold CategoriesRoute.POST, try_catch in Hrun.
  rewrite (authenticated_signed_in _ _ _ u) in Hrun by assumption.
  unfold bind, liftR, insertOne_category, record_op, ret in Hrun.
  rewrite Hjson in Hrun. cbn in Hrun.
  destruct (truthy (field o "name")); cbn in Hrun.
  - destruct (existsb _ _) eqn:Hex; inversion Hrun; subst; cbn in *;
      [discriminate |].
    eexists. repeat split.
    intros Hdup. apply in_map_iff in Hdup as (d & Hd & Hd').
    assert (existsb (fun x => (Category._id x =? fresh env)%N)
              (categories (db w)) = true) as Habs.
    { apply existsb_exists. exists d. split; [assumption |].
      now apply N.eqb_eq. }
    congruence.
  - inversion Hrun; subst. discriminate.
Qed.

Lemma createTask_spec_userId d d' :
  createTask_spec d = Ok d' -> Task.userId d' = Task.userId d.
Proof.
  unfold createTask_spec. intros H.
  destruct (truthy (Task.dueTime d) && negb (truthy (Task.dueDate d)));
    [discriminate |].
  destruct (Task.priority d); try (now inversion H);
    destruct (is_priority _); now inversion H.
Qed.

Lemma POST_tasks_owner env verify req u o w r w' :
  db_up env = true -> signed_in (imports_with verify) req u ->
  json req = Ok o ->
  TasksRoute.POST env (imports_with verify) req w = (r, w') ->
  status r = 201 ->
  exists t, tasks (db w') = (tasks (db w) ++ [t])%list /\
            categories (db w') = categories (db w) /\
            Task.userId (Task.fields t) = u /\
            Task._id t = fresh env.
Proof.
  intros Hdb Hin Hjson Hrun Hst.
  rewrite (POST_tasks_signed_in _ _ _ u o) in Hrun by assumption.
  destruct (negb (truthy (field o "title"))
            || negb (truthy (field o "resume")));
    [inversion Hrun; subst; discriminate |].
  unfold try_catch, bind, liftR, insertOne_task, record_op, ret in Hrun.
  destruct (TasksRoute.processDueDate _ _ _) as [due |];
    [| inversion Hrun; subst; discriminate].
  cbn [imports_with createTask] in Hrun.
  destruct (createTask_spec _) as [d' |] eqn:Hcreate;
    [| inversion Hrun; subst; discriminate].
  apply createTask_spec_userId in Hcreate. cbn in Hcreate, Hrun.
  destruct (existsb _ _); inversion Hrun; subst; [discriminate |].
  eexists. cbn. now repeat split.
Qed.

(* ===================================================================== *)
(** ** C9: deleting again *)
(* ===================================================================== *)

(** C9, as the code has it.  In a store that holds each id once, once a
    category's DELETE has answered 200, the same DELETE repeated by any
    signed-in caller answers 404 "not found" (neither 200 nor 500) and
    leaves the store as it is.  The DELETE of an id that no category has
    answers the same 404 when the id is an ObjectId, 24 hexadecimal
    characters; when it is not, building the ObjectId throws and the
    answer is 500.  The store is unchanged in each case. *)
Theorem delete_again_not_found env imp req u id w :
  db_up env = true -> signed_in imp req u -> unique_ids (db w) ->
  (forall r1 w1,
     CategoryRoute.DELETE env imp req id w = (r1, w1) -> status r1 = 200 ->
     forall env' imp' req' u',
       db_up env' = true -> signed_in imp' req' u' ->
       CategoryRoute.DELETE env' imp' req' id w1
       = (CategoryRoute.not_found,
          logged w1 [Connect; DeleteOne Categories])) /\
  (forall oid, ObjectId_new id = Ok oid ->
     ~ In oid (map Category._id (categories (db w))) ->
     CategoryRoute.DELETE env imp req id w
     = (CategoryRoute.not_found, logged w [Connect; DeleteOne Categories])) /\
  (forall msg, ObjectId_new id = Throw msg ->
     CategoryRoute.DELETE env imp req id w = (server_error msg, connected w)).
Proof.
  intros Hdb Hin [_ Hnd]. split; [| split].
  - intros r1 w1 Hrun Hst env' imp' req' u' Hdb' Hin'.
    destruct (ObjectId_new id) as [oid | msg] eqn:Hid.
    + rewrite (DELETE_category_run _ _ _ u id oid) in Hrun by assumption.
      destruct (remove_first _ _) as [rest |] eqn:Hrm.
      * inversion Hrun; subst.
        rewrite (DELETE_category_run _ _ _ u' id oid) by assumption.
        cbn [db categories].
        destruct (remove_first_key Category._id _ _ _ oid Hnd
                    (is_category_id oid u) Hrm) as [_ Hgone].
        rewrite remove_first_none; [reflexivity |].
        now apply no_match_absent.
      * inversion Hrun; subst. discriminate.
    + rewrite (DELETE_category_malformed _ _ _ u id msg) in Hrun
        by assumption.
      inversion Hrun; subst. discriminate.
  - intros oid Hid Habs.
    rewrite (DELETE_category_run _ _ _ u id oid) by assumption.
    rewrite remove_first_none; [reflexivity |].
    now apply no_match_absent.
  - intros msg Hid. now apply (DELETE_category_malformed _ _ _ u).
Qed.

(** Alice deletes her category, then asks again: the category she owned
    is gone and the second answer is the 404. *)
Lemma delete_again_not_found_witness :
  status (fst (CategoryRoute.DELETE utc_server spec_imports
                 (bearer "alice-token" ∅) hex_1 alice_world)) = 200 /\
  fst (CategoryRoute.DELETE utc_server spec_imports
         (bearer "alice-token" ∅) hex_1
         (snd (CategoryRoute.DELETE utc_server spec_imports
                 (bearer "alice-token" ∅) hex_1 alice_world)))
  = CategoryRoute.not_found.
Proof.
  destruct (delete_again_not_found utc_server spec_imports
              (bearer "alice-token" ∅) alice hex_1 alice_world)
    as [Hagain _].
  - reflexivity.
  - exists "alice-token", alice_hex. known_credential.
  - one_document_each.
  - split; [reflexivity |].
    rewrite (Hagain _ _ (surjective_pairing _) eq_refl utc_server
               spec_imports (bearer "alice-token" ∅) alice).
    + reflexivity.
    + reflexivity.
    + exists "alice-token", alice_hex. known_credential.
Defined.

(** An id that no category has, and that is not an ObjectId: the DELETE
    is answered 500, not 404. *)
Lemma DELETE_of_absent_malformed_id_is_500 :
  (forall c, In c (categories (db alice_world)) ->
     ObjectId_new "1" <> Ok (Category._id c)) /\
  status (fst (CategoryRoute.DELETE utc_server spec_imports
                 (bearer "alice-token" ∅) "1" alice_world)) = 500 /\
  fst (CategoryRoute.DELETE utc_server spec_imports
         (bearer "alice-token" ∅) "1" alice_world)
  <> CategoryRoute.not_found.
Proof.
  split; [| split].
  - intros c _. discriminate.
  - reflexivity.
  - discriminate.
Qed.

Lemma NoDup_snoc {A} (l : list A) x :
  List.NoDup l -> ~ In x l -> List.NoDup (l ++ [x]).
Proof.
  induction l as [| y rest IH]; intros Hnd Hx; cbn.
  - apply NoDup_cons_iff. split; [intros [] | constructor].
  - apply NoDup_cons_iff in Hnd as [Hy Hrest].
    apply NoDup_cons_iff. split.
    + intros Hin. apply in_app_or in Hin as [Hin | [-> | []]];
        [now apply Hy | apply Hx; now left].
    + apply IH; [assumption |]. intros Hin. apply Hx. now right.
Qed.

Lemma fresh_not_stored {A} (key : A -> ObjectId) (l : list A) k :
  existsb (fun x => (key x =? k)%N) l = false -> ~ In k (map key l).
Proof.
  intros Hex Hin. apply in_map_iff in Hin as (d & Hd & Hd').
  assert (existsb (fun x => (key x =? k)%N) l = true) as Habs.
  { apply existsb_exists. exists d. split; [assumption |].
    now apply N.eqb_eq. }
  congruence.
Qed.

(** The invariant the statements assume is kept by every handler. *)
Lemma serve_keeps_unique_ids env imp e req w :
  unique_ids (db w) -> unique_ids (db (snd (serve env imp e req w))).
Proof.
  intros [Ht Hc].
  destruct (db_up env) eqn:Hdb;
    [| now rewrite serve_db_down by assumption].
  destruct (header_token req) as [token |] eqn:Htok;
    [| rewrite serve_no_token by (assumption || now left); now split].
  destruct token as [| ch token];
    [rewrite serve_no_token by (assumption || now right); now split |].
  destruct (verifyToken imp (String ch token)) as [hex | msg] eqn:Hver;
    [| rewrite (serve_rejected _ _ _ _ msg);
       [now split | assumption |
        exists (String ch token); repeat split; try assumption;
        discriminate]].
  destruct e; cbn [serve];
    unfold TasksRoute.GET, TasksRoute.POST, CategoriesRoute.GET,
      CategoriesRoute.POST, CategoryRoute.GET, CategoryRoute.DELETE,
      try_catch, authenticated, dbConnect, bind, liftR, record_op, ret,
      find_tasks, find_categories, findOne_category, deleteOne_category,
      insertOne_task, insertOne_category;
    rewrite Hdb, Htok, Hver; cbn;
    destruct (ObjectId_new hex) as [u |]; cbn; try (now split).
  - destruct (json req) as [o |]; cbn; [| now split].
    destruct (negb (truthy (field o "title")) || negb (truthy (field o "resume")));
      cbn; [now split |].
    destruct (TasksRoute.processDueDate _ _ _); cbn; [| now split].
    destruct (createTask imp _); cbn; [| now split].
    destruct (existsb _ _) eqn:Hex; cbn; [now split |].
    split; [| assumption].
    cbn [tasks]. rewrite map_app. cbn [map Task._id].
    apply NoDup_snoc; [assumption |].
    now apply (fresh_not_stored Task._id).
  - destruct (json req) as [o |]; cbn; [| now split].
    destruct (negb (truthy (field o "name"))); cbn; [now split |].
    destruct (createCategory imp _); cbn; [| now split].
    destruct (existsb _ _) eqn:Hex; cbn; [now split |].
    split; [assumption |].
    cbn [categories]. rewrite map_app. cbn [map Category._id].
    apply NoDup_snoc; [assumption |].
    now apply (fresh_not_stored Category._id).
  - destruct (ObjectId_new id); cbn; [| now split].
    destruct (List.find _ _); now split.
  - destruct (ObjectId_new id) as [oid |]; cbn; [| now split].
    destruct (remove_first _ _) as [rest |] eqn:Hrm; cbn; [| now split].
    split; [assumption |].
    now destruct (remove_first_key Category._id _ _ _ oid Hc
                    (is_category_id oid u) Hrm).
Qed.

Lemma reachable_unique_ids w : reachable w -> unique_ids (db w).
Proof.
  induction 1 as [| env imp e req w _ IH].
  - split; constructor.
  - now apply serve_keeps_unique_ids.
Qed.

(* ===================================================================== *)
(** ** C5: requests without a usable credential *)
(* ===================================================================== *)

(** C5, as the code has it.  On every endpoint, once [dbConnect] has
    answered: a request with no Authorization header, or with a header
    that yields no credential, gets 401 "No token provided"; a request
    whose credential the verifier rejects gets 500 "Internal server
    error" carrying the verifier's message.  In both cases the only
    storage request on record is the connection: no collection is read or
    written. *)
Theorem missing_credential_401_rejected_500 env imp e req w :
  db_up env = true ->
  (authorization req = None ->
     serve env imp e req w = (unauthorized, connected w)) /\
  (no_token req -> serve env imp e req w = (unauthorized, connected w)) /\
  (forall msg, rejected imp req msg ->
     serve env imp e req w = (server_error msg, connected w)).
Proof.
  intros Hdb. split; [| split].
  - intros Hnone. apply serve_no_token; [assumption |].
    left. unfold header_token. now rewrite Hnone.
  - now apply serve_no_token.
  - intros msg Hrej. now apply serve_rejected.
Qed.

Lemma missing_credential_401_rejected_500_witness :
  serve utc_server spec_imports POST_tasks no_header alice_world
  = (unauthorized, connected alice_world) /\
  serve utc_server spec_imports POST_tasks (bearer "stale-token" ∅)
    alice_world
  = (server_error "invalid token", connected alice_world).
Proof.
  destruct (missing_credential_401_rejected_500 utc_server spec_imports
              POST_tasks no_header alice_world eq_refl) as (H401 & _ & _).
  destruct (missing_credential_401_rejected_500 utc_server spec_imports
              POST_tasks (bearer "stale-token" ∅) alice_world eq_refl)
    as (_ & _ & H500).
  split; [apply H401; reflexivity | apply H500].
  exists "stale-token". repeat split; try reflexivity; discriminate.
Defined.

(** A credential that fails verification is not answered like a missing
    one: 500, not 401. *)
Lemma rejected_credential_is_not_401 :
  rejected spec_imports (bearer "stale-token" ∅) "invalid token" /\
  status (fst (serve utc_server spec_imports GET_tasks
                 (bearer "stale-token" ∅) empty_world)) = 500 /\
  status (fst (serve utc_server spec_imports GET_tasks no_header
                 empty_world)) = 401.
Proof.
  split; [| split; reflexivity].
  exists "stale-token". repeat split; try reflexivity; discriminate.
Qed.

(** Whatever the imported functions do, a handler answers 401 only to a
    request that carries no credential. *)
Lemma unauthorized_only_without_token env imp e req w :
  status (fst (serve env imp e req w)) = 401 -> no_token req.
Proof.
  destruct (db_up env) eqn:Hdb;
    [| rewrite serve_db_down by assumption; discriminate].
  destruct (header_token req) as [token |] eqn:Htok; [| now left].
  destruct token as [| ch token]; [now right |].
  destruct (verifyToken imp (String ch token)) as [hex | msg] eqn:Hver;
    [| rewrite (serve_rejected _ _ _ _ msg);
       [discriminate | assumption |
        exists (String ch token); repeat split; try assumption;
        discriminate]].
  destruct e; cbn [serve];
    unfold TasksRoute.GET, TasksRoute.POST, CategoriesRoute.GET,
      CategoriesRoute.POST, CategoryRoute.GET, CategoryRoute.DELETE,
      try_catch, authenticated, dbConnect, bind, liftR, record_op, ret,
      find_tasks, find_categories, findOne_category, deleteOne_category,
      insertOne_task, insertOne_category;
    rewrite Hdb, Htok, Hver; cbn;
    destruct (ObjectId_new hex) as [u |]; cbn; try discriminate.
  - destruct (json req) as [o |]; cbn; [| discriminate].
    destruct (negb (truthy (field o "title")) || negb (truthy (field o "resume")));
      cbn; [discriminate |].
    destruct (TasksRoute.processDueDate _ _ _); cbn; [| discriminate].
    destruct (createTask imp _); cbn; [| discriminate].
    destruct (existsb _ _); cbn; discriminate.
  - destruct (json req) as [o |]; cbn; [| discriminate].
    destruct (negb (truthy (field o "name"))); cbn; [discriminate |].
    destruct (createCategory imp _); cbn; [| discriminate].
    destruct (existsb _ _); cbn; discriminate.
  - destruct (ObjectId_new id); cbn; [| discriminate].
    destruct (List.find _ _); discriminate.
  - destruct (ObjectId_new id) as [oid |]; cbn; [| discriminate].
    destruct (remove_first _ _); cbn; discriminate.
Qed.

(** With the database unreachable even a request without a credential is
    answered 500: the connection is attempted before the header is
    read. *)
Lemma no_credential_database_down env imp e req w :
  db_up env = false -> no_token req ->
  serve env imp e req w
  = (server_error "database connection failed", connected w).
Proof. intros Hdb _. now apply serve_db_down. Qed.

(* ===================================================================== *)
(** ** C10: which part of the header is the credential *)
(* ===================================================================== *)

(** C10, as the code has it.  The credential is the second piece of the
    Authorization header cut at every single space character.  For a
    header [scheme ++ " " ++ rest] with no space in [scheme], that is
    [rest] up to its first space, whatever [scheme] is: every endpoint
    answers alike for any two space-free schemes.  A header with no space
    at all (a bare token, or "Bearer" alone) yields no credential and,
    once [dbConnect] has answered, gets 401. *)
Theorem credential_is_second_piece env imp e w scheme rest o :
  has_space scheme = false ->
  header_token
    {| authorization := Some (scheme +:+ " " +:+ rest); json := o |}
  = head (split_on " " rest) /\
  (has_space rest = false ->
   header_token
     {| authorization := Some (scheme +:+ " " +:+ rest); json := o |}
   = Some rest) /\
  (forall scheme', has_space scheme' = false ->
     serve env imp e
       {| authorization := Some (scheme' +:+ " " +:+ rest); json := o |} w
     = serve env imp e
         {| authorization := Some (scheme +:+ " " +:+ rest); json := o |}
         w) /\
  (db_up env = true ->
   serve env imp e {| authorization := Some scheme; json := o |} w
   = (unauthorized, connected w)).
Proof.
  intros Hs. split; [| split; [| split]].
  - now apply header_token_scheme.
  - intros Hr. rewrite header_token_scheme by assumption.
    now rewrite split_on_single.
  - intros scheme' Hs'. apply serve_same_credential; [| reflexivity].
    now rewrite !header_token_scheme.
  - intros Hdb. apply serve_no_token; [assumption |].
    left. now apply header_token_single.
Qed.

Lemma credential_is_second_piece_witness :
  serve utc_server spec_imports GET_categories
    {| authorization := Some "Basic alice-token"; json := Ok ∅ |}
    alice_world
  = serve utc_server spec_imports GET_categories
      {| authorization := Some "Bearer alice-token"; json := Ok ∅ |}
      alice_world
  /\ serve utc_server spec_imports GET_categories
       {| authorization := Some "Bearer"; json := Ok ∅ |} alice_world
     = (unauthorized, connected alice_world).
Proof.
  destruct (credential_is_second_piece utc_server spec_imports
              GET_categories alice_world "Bearer" "alice-token" (Ok ∅)
              eq_refl) as (_ & _ & Hscheme & H401).
  split; [apply (Hscheme "Basic"); reflexivity | apply H401; reflexivity].
Defined.

(** Two spaces after the scheme: the second whitespace-separated word is
    the token, but the second piece is empty, and the request that would
    be served with one space is turned away. *)
Lemma second_word_is_not_the_credential :
  ws_words "Bearer  alice-token" !! 1%nat = Some "alice-token" /\
  header_token (with_header "Bearer  alice-token") = Some "" /\
  fst (serve utc_server spec_imports GET_tasks
         (with_header "Bearer  alice-token") alice_world) = unauthorized /\
  status (fst (serve utc_server spec_imports GET_tasks
                 (with_header "Bearer alice-token") alice_world)) = 200.
Proof. repeat split; reflexivity. Qed.

(* ===================================================================== *)
(** ** C8: title and resume are required *)
(* ===================================================================== *)

(** C8, as the code has it.  A signed-in POST /tasks whose body has an
    empty or absent [title], or an empty or absent [resume], is answered
    400; the store is unchanged and no storage request beyond the
    connection was made, so the check precedes every persistence call.
    The error is not tagged with the field: the answer is the one message
    "Title and resume are required", the same for every such request,
    whichever of the two fields is missing. *)
Theorem missing_title_or_resume_rejected env imp req u o w :
  db_up env = true -> signed_in imp req u -> json req = Ok o ->
  empty_or_absent o "title" \/ empty_or_absent o "resume" ->
  TasksRoute.POST env imp req w
  = ({| status := 400; body := BFail "Title and resume are required" |},
     connected w) /\
  db (snd (TasksRoute.POST env imp req w)) = db w /\
  log (snd (TasksRoute.POST env imp req w)) = (log w ++ [Connect])%list /\
  (forall env' imp' req' u' o' w',
     db_up env' = true -> signed_in imp' req' u' -> json req' = Ok o' ->
     empty_or_absent o' "title" \/ empty_or_absent o' "resume" ->
     fst (TasksRoute.POST env' imp' req' w')
     = fst (TasksRoute.POST env imp req w)).
Proof.
  assert (forall env imp req u o w,
            db_up env = true -> signed_in imp req u -> json req = Ok o ->
            empty_or_absent o "title" \/ empty_or_absent o "resume" ->
            TasksRoute.POST env imp req w
            = ({| status := 400;
                  body := BFail "Title and resume are required" |},
               connected w)) as Hrun.
  { clear. intros env imp req u o w Hdb Hin Hjson Hmiss.
    apply (POST_tasks_missing_field _ _ _ u o); try assumption.
    destruct Hmiss as [H | H]; [left | right];
      now apply empty_or_absent_falsy. }
  intros Hdb Hin Hjson Hmiss.
  rewrite (Hrun env imp req u o w) by assumption. cbn [fst snd].
  split; [reflexivity |]. split; [reflexivity |]. split; [reflexivity |].
  intros env' imp' req' u' o' w' Hdb' Hin' Hjson' Hmiss'.
  now rewrite (Hrun env' imp' req' u' o' w') by assumption.
Qed.

Lemma missing_title_or_resume_rejected_witness :
  TasksRoute.POST utc_server spec_imports
    (bearer "alice-token" {[ "title" := JStr ""; "resume" := JStr "grocery" ]})
    alice_world
  = ({| status := 400; body := BFail "Title and resume are required" |},
     connected alice_world).
Proof.
  apply (missing_title_or_resume_rejected utc_server spec_imports _ alice
           {[ "title" := JStr ""; "resume" := JStr "grocery" ]}).
  - reflexivity.
  - exists "alice-token", alice_hex. known_credential.
  - reflexivity.
  - left. right. reflexivity.
Defined.

(** A body without a title and a body without a resume get the same
    answer, word for word: nothing in it says which field is at fault. *)
Lemma missing_title_and_missing_resume_answer_alike :
  empty_or_absent untitled_body "title" /\
  truthy (field untitled_body "resume") = true /\
  truthy (field unsummarised_body "title") = true /\
  empty_or_absent unsummarised_body "resume" /\
  fst (TasksRoute.POST utc_server spec_imports
         (bearer "alice-token" untitled_body) empty_world)
  = fst (TasksRoute.POST utc_server spec_imports
           (bearer "alice-token" unsummarised_body) empty_world) /\
  fst (TasksRoute.POST utc_server spec_imports
         (bearer "alice-token" untitled_body) empty_world)
  = {| status := 400; body := BFail "Title and resume are required" |}.
Proof.
  split; [right; reflexivity |]. split; [reflexivity |].
  split; [reflexivity |]. split; [right; reflexivity |].
  split; reflexivity.
Qed.

(** In the form the same two inputs are caught before any request: the
    error is filed under the input's own key and nothing is sent. *)
Lemma form_requires_name_and_resume t st :
  (TodoForm.taskName st = "" ->
   snd (TodoForm.handleSaveTask t st) = None /\
   fst (TodoForm.handleSaveTask t st) !! "taskName"
   = Some (t "task.name" +:+ " " +:+ t "task.required")) /\
  (TodoForm.resume st = "" ->
   snd (TodoForm.handleSaveTask t st) = None /\
   fst (TodoForm.handleSaveTask t st) !! "resume"
   = Some (t "task.resume" +:+ " " +:+ t "task.required")).
Proof.
  split.
  - intros Hname. pose proof (newErrors_taskName t st Hname) as Hk.
    rewrite form_blocked by (eapply has_key_not_empty; eassumption).
    now split.
  - intros Hres. pose proof (newErrors_resume t st Hres) as Hk.
    rewrite form_blocked by (eapply has_key_not_empty; eassumption).
    now split.
Qed.

(* ===================================================================== *)
(** ** C3: a time without a date *)
(* ===================================================================== *)

(** With a time and no date the route computes no due instant and hands
    [createTask] the record below; what it answers is then up to
    [createTask]. *)
Lemma POST_tasks_time_only env imp req u o w time :
  db_up env = true -> signed_in imp req u -> json req = Ok o ->
  truthy (field o "title") = true -> truthy (field o "resume") = true ->
  truthy (field o "dueDate") = false ->
  field o "dueTime" = JStr time -> time <> "" ->
  let input :=
    {| Task.title := field o "title";
       Task.resume := field o "resume";
       Task.description := field o "description";
       Task.userId := u;
       Task.categoryId := JUndefined;
       Task.dueDate := JUndefined;
       Task.dueTime := JStr time;
       Task.priority := field o "priority" |} in
  (forall d,
     createTask imp input = Ok d ->
     ~ In (fresh env) (map Task._id (tasks (db w))) ->
     let stored := {| Task._id := fresh env; Task.fields := d |} in
     TasksRoute.POST env imp req w
     = ({| status := 201;
           body := BTask (TasksRoute.response_task stored) |},
        {| db := {| tasks := tasks (db w) ++ [stored];
                    categories := categories (db w) |};
           log := log w ++ [Connect; InsertOne Tasks] |})) /\
  (forall msg,
     createTask imp input = Throw msg ->
     TasksRoute.POST env imp req w = (server_error msg, connected w)).
Proof.
  intros Hdb Hin Hjson Ht Hr Hdate Htime Hne input.
  assert (js_or (JStr time) JUndefined = JStr time) as Hor.
  { unfold js_or. destruct time; [congruence | reflexivity]. }
  assert (TasksRoute.POST env imp req w
          = try_catch
              (newTask <- liftR (createTask imp input) ;;
               stored <- insertOne_task env newTask ;;
               ret {| status := 201;
                      body := BTask (TasksRoute.response_task stored) |})
              (connected w)) as Hrun.
  { rewrite (POST_tasks_signed_in _ _ _ u o) by assumption.
    rewrite Ht, Hr. cbn [negb orb].
    unfold TasksRoute.processDueDate. rewrite Hdate, Htime, Hor.
    reflexivity. }
  rewrite Hrun. split.
  - intros d Hcreate Hfresh stored.
    assert (existsb (fun x => (Task._id x =? fresh env)%N) (tasks (db w))
            = false) as Hex.
    { destruct (existsb _ _) eqn:Hex; [| reflexivity].
      exfalso. apply Hfresh. apply existsb_exists in Hex as (x & Hx & Hx').
      apply N.eqb_eq in Hx'. rewrite <- Hx'. now apply in_map. }
    unfold try_catch, bind, liftR, insertOne_task, record_op, ret.
    rewrite Hcreate. cbn. now rewrite Hex, <- app_assoc.
  - intros msg Hcreate. unfold try_catch, bind, liftR. now rewrite Hcreate.
Qed.

(** C3, as the code has it.  The check lives in the form: when Save is
    pressed with a time and no date, whether to create or to update, the
    form files an error under the date input's key and sends no request,
    so nothing is persisted.  The POST /tasks route has no such check: to
    a body with a title and a resume it never answers 400, whatever the
    imported functions; with a time and no date it computes no due
    instant and hands the record, with that [dueTime] and no [dueDate],
    to [createTask].  If [createTask] returns a task, that task is
    inserted and the answer is 201; if it throws, the answer is 500 and
    nothing is inserted. *)
Theorem time_without_date t st :
  TodoForm.timeInput st <> "" -> TodoForm.dateInput st = "" ->
  TodoForm.handleSaveTask t st = (TodoForm.newErrors t st, None) /\
  TodoForm.newErrors t st !! "dateInput"
  = Some (t "task.due_date" +:+ " " +:+ t "task.required_if_time") /\
  (forall env imp req u o w,
     db_up env = true -> signed_in imp req u -> json req = Ok o ->
     truthy (field o "title") = true -> truthy (field o "resume") = true ->
     status (fst (TasksRoute.POST env imp req w)) <> 400) /\
  (forall env imp req u o w time,
     db_up env = true -> signed_in imp req u -> json req = Ok o ->
     truthy (field o "title") = true -> truthy (field o "resume") = true ->
     truthy (field o "dueDate") = false ->
     field o "dueTime" = JStr time -> time <> "" ->
     let input :=
       {| Task.title := field o "title";
          Task.resume := field o "resume";
          Task.description := field o "description";
          Task.userId := u;
          Task.categoryId := JUndefined;
          Task.dueDate := JUndefined;
          Task.dueTime := JStr time;
          Task.priority := field o "priority" |} in
     (forall d,
        createTask imp input = Ok d ->
        ~ In (fresh env) (map Task._id (tasks (db w))) ->
        let stored := {| Task._id := fresh env; Task.fields := d |} in
        TasksRoute.POST env imp req w
        = ({| status := 201;
              body := BTask (TasksRoute.response_task stored) |},
           {| db := {| tasks := tasks (db w) ++ [stored];
                       categories := categories (db w) |};
              log := log w ++ [Connect; InsertOne Tasks] |})) /\
     (forall msg,
        createTask imp input = Throw msg ->
        TasksRoute.POST env imp req w = (server_error msg, connected w))).
Proof.
  intros Htime Hdate.
  pose proof (newErrors_dateInput t st Htime Hdate) as Hk.
  split; [| split; [assumption | split]].
  - apply form_blocked. eapply has_key_not_empty; eassumption.
  - intros env imp req u o w Hdb Hin Hjson Ht Hr.
    destruct (POST_tasks_past_validation env imp req u o w) as [H | H];
      try assumption; rewrite H; discriminate.
  - intros env imp req u o w time Hdb Hin Hjson Ht Hr Hd Hti Hne.
    now apply (POST_tasks_time_only env imp req u o w time).
Qed.

Lemma time_without_date_witness :
  TodoForm.handleSaveTask (fun key => key) time_only_form
  = (TodoForm.newErrors (fun key => key) time_only_form, None) /\
  TodoForm.newErrors (fun key => key) time_only_form !! "dateInput"
  = Some "task.due_date task.required_if_time".
Proof.
  destruct (time_without_date (fun key => key) time_only_form)
    as (Hsend & Herr & _).
  - discriminate.
  - reflexivity.
  - split; [exact Hsend | exact Herr].
Defined.

(** A signed-in POST /tasks with a title, a resume, a time and no date is
    not answered with a validation error: its status is not 400. *)
Lemma POST_time_without_date_is_not_400 :
  truthy (field time_only_body "dueTime") = true /\
  field time_only_body "dueDate" = JUndefined /\
  status (fst (TasksRoute.POST utc_server spec_imports
                 (bearer "alice-token" time_only_body) empty_world)) <> 400.
Proof. repeat split; try reflexivity; discriminate. Qed.

(* ===================================================================== *)
(** ** C7: the priority of a new task *)
(* ===================================================================== *)






(* ===================================================================== *)
(** ** C4: overdue *)
(* ===================================================================== *)

Lemma with_overdue_cases currentDate t :
  let due := Task.dueDate (Task.fields t) in
  let v := TasksRoute.with_overdue currentDate t in
  task v = t /\
  (forall tv, due = JDate (Some tv) -> overdue v = JBool (tv <? currentDate)) /\
  (truthy due = true ->
   overdue v = JBool (date_lt (Date_new due) (Some currentDate))) /\
  (truthy due = false -> overdue v = due) /\
  (due = JUndefined \/ due = JNull ->
   overdue v = due /\ overdue v <> JBool false /\
   truthy (overdue v) = false).
Proof.
  cbn. unfold js_and.
  split; [reflexivity |]. split; [now intros tv -> |].
  split; [now intros -> |]. split; [now intros -> |].
  intros [-> | ->]; repeat split; discriminate.
Qed.

(** C4, as the code has it.  A signed-in list call returns the caller's
    tasks, each with [overdue] computed from the stored [dueDate] and the
    clock of the call, and writes nothing.  When [dueDate] is set,
    [overdue] is the boolean [dueDate < now].  When the task has no
    [dueDate], [overdue] is not the boolean false: it is the missing
    [dueDate] itself, undefined or null, whatever the time; it is falsy. *)
Theorem overdue_at_read_time env imp req u w :
  db_up env = true -> signed_in imp req u ->
  exists l,
    TasksRoute.GET env imp req w
    = ({| status := 200; body := BTasks l |},
       logged w [Connect; Find Tasks]) /\
    map task l = List.filter (owns_task u) (tasks (db w)) /\
    forall v, In v l ->
      let due := Task.dueDate (Task.fields (task v)) in
      (forall tv, due = JDate (Some tv) ->
         overdue v = JBool (tv <? now env)) /\
      (truthy due = true ->
         overdue v = JBool (date_lt (Date_new due) (Some (now env)))) /\
      (truthy due = false -> overdue v = due) /\
      (due = JUndefined \/ due = JNull ->
         overdue v = due /\ overdue v <> JBool false /\
         truthy (overdue v) = false).
Proof.
  intros Hdb Hin. eexists. split; [| split].
  - apply (GET_tasks_run _ _ _ u); assumption.
  - rewrite map_map. cbn. apply map_id.
  - intros v Hv. apply in_map_iff in Hv as (t & <- & _).
    apply with_overdue_cases.
Qed.

Lemma overdue_at_read_time_witness :
  exists l,
    TasksRoute.GET utc_server spec_imports (bearer "alice-token" ∅)
      alice_world
    = ({| status := 200; body := BTasks l |},
       logged alice_world [Connect; Find Tasks]) /\
    map task l = [milk_task].
Proof.
  destruct (overdue_at_read_time utc_server spec_imports
              (bearer "alice-token" ∅) alice alice_world)
    as (l & Hrun & Hl & _).
  - reflexivity.
  - exists "alice-token", alice_hex. known_credential.
  - exists l. split; [exact Hrun | exact Hl].
Defined.

(** A task without a due date is listed with [overdue] undefined, not
    false. *)
Lemma overdue_of_undated_task_is_not_false :
  Task.dueDate (Task.fields milk_task) = JUndefined /\
  body (fst (TasksRoute.GET utc_server spec_imports
               (bearer "alice-token" ∅) alice_world))
  = BTasks [{| task := milk_task; overdue := JUndefined |}] /\
  JUndefined <> JBool false.
Proof. repeat split; try reflexivity; discriminate. Qed.

(* ===================================================================== *)
(** ** C6: deleting a category that a task refers to *)
(* ===================================================================== *)

Lemma field_insert_other o k k' v :
  k' <> k -> field (<[k' := v]> o) k = field o k.
Proof. intros Hne. unfold field. now rewrite lookup_insert_ne. Qed.

(** The route never reads [categoryId]: the same request with any other
    value for it has the same outcome. *)
Lemma POST_tasks_ignores_categoryId env imp req o v w :
  json req = Ok o ->
  TasksRoute.POST env imp
    {| authorization := authorization req;
       json := Ok (<["categoryId" := v]> o) |} w
  = TasksRoute.POST env imp req w.
Proof.
  intros Hjson. unfold TasksRoute.POST, authenticated, header_token.
  cbn [authorization json]. rewrite Hjson.
  unfold try_catch, bind, liftR.
  destruct (dbConnect env w) as [[[] |] w0]; [| reflexivity].
  destruct (authorization req) as [h |]; [| reflexivity].
  destruct (split_on " " h !! 1%nat) as [[| c token] |]; try reflexivity.
  destruct (verifyToken imp _); [| reflexivity].
  destruct (ObjectId_new _); [| reflexivity].
  now rewrite !field_insert_other by discriminate.
Qed.

(** C6.  Scenario 3 run on the code: Alice creates the category "Work",
    creates a task whose body refers to it, deletes the category and
    lists her tasks.  The deletion removes the category and leaves the
    tasks as they were; but the task was stored without any [categoryId]
    in the first place, since POST /tasks does not read that key: the
    listing shows [categoryId] undefined, not the category's id. *)
Theorem new_task_loses_its_category :
  map Category._id (categories (db after_category)) = [1%N] /\
  ObjectId_new hex_1 = Ok 1%N /\
  field filed_body "categoryId" = JStr hex_1 /\
  map (fun d => Task.categoryId (Task.fields d)) (tasks (db after_task))
  = [JUndefined] /\
  categories (db after_delete) = [] /\
  tasks (db after_delete) = tasks (db after_task) /\
  listed_categoryIds
    (fst (TasksRoute.GET (server_next 3%N) spec_imports
            (bearer "alice-token" ∅) after_delete))
  = [JUndefined].
Proof. repeat split; reflexivity. Qed.

(* ===================================================================== *)
(** ** C2: the due instant *)
(* ===================================================================== *)

Lemma digit_val_range c d : digit_val c = Some d -> 0 <= d <= 9.
Proof.
  unfold digit_val.
  destruct (_ && _) eqn:H; [| discriminate].
  intros [= <-]. apply andb_prop in H as [H1 H2].
  apply Z.leb_le in H1, H2. lia.
Qed.

Lemma parse_iso_date_range s y m d :
  parse_iso_date s = Some (y, m, d) ->
  0 <= y <= 9999 /\ 1 <= m <= 12 /\ 1 <= d <= 31.
Proof.
  unfold parse_iso_date.
  do 10 (destruct s as [| ? s]; [discriminate |]).
  destruct s; [| discriminate].
  destruct (_ && _); [| discriminate].
  cbn [digits_val].
  repeat match goal with
         | |- context [digit_val ?c] =>
             let H := fresh "Hd" in
             destruct (digit_val c) eqn:H;
             [apply digit_val_range in H | discriminate]
         end.
  destruct (_ && _) eqn:Hr; [| discriminate].
  intros [= <- <- <-].
  apply andb_prop in Hr as [Hr Hday31]. apply andb_prop in Hr as [Hr Hday1].
  apply andb_prop in Hr as [Hmon1 Hmon12].
  apply Z.leb_le in Hday31, Hday1, Hmon1, Hmon12. lia.
Qed.

Lemma days_from_civil_range y m d :
  0 <= y <= 9999 -> 1 <= m <= 12 -> 1 <= d <= 31 ->
  -1000000 <= days_from_civil y m d <= 4000000.
Proof.
  intros Hy Hm Hd. unfold days_from_civil.
  destruct (m <=? 2) eqn:Hm2;
    [apply Z.leb_le in Hm2 | apply Z.leb_gt in Hm2];
    cbv zeta; Z.div_mod_to_equations; lia.
Qed.

(** What [setHours] makes of midnight UTC of day [D], for a zone offset of
    whole seconds less than a day either way: the local day is [D] at or
    east of UTC and [D - 1] west of it. *)
Lemma setHours_of_utc_midnight tza D h mi :
  - msPerDay < tza < msPerDay -> tza mod msPerSecond = 0 ->
  -1000000 <= D <= 4000000 -> 0 <= h < 24 -> 0 <= mi < 60 ->
  exists tv,
    setHours tza (TimeClip (D * msPerDay)) (Some h) (Some mi) (Some 0)
    = Some tv /\
    LocalTime tza tv
    = MakeDate (if tza <? 0 then D - 1 else D) (MakeTime h mi 0 0).
Proof.
  unfold msPerDay, msPerSecond. intros Htza Hsec HD Hh Hmi.
  unfold TimeClip at 1.
  replace (Z.abs (D * 86400000) <=? 8640000000000000) with true
    by (symmetry; apply Z.leb_le; lia).
  unfold setHours, LocalTime, UTC, MakeDate, MakeTime, Day, msFromTime,
    msPerDay, msPerHour, msPerMinute, msPerSecond.
  assert ((D * 86400000 + tza) mod 1000 = 0) as ->.
  { Z.div_mod_to_equations; lia. }
  assert ((D * 86400000 + tza) / 86400000 = if tza <? 0 then D - 1 else D)
    as ->.
  { destruct (tza <? 0) eqn:Hneg;
      [apply Z.ltb_lt in Hneg | apply Z.ltb_ge in Hneg];
      Z.div_mod_to_equations; lia. }
  eexists. split.
  - unfold TimeClip.
    replace (Z.abs _ <=? 8640000000000000) with true; [reflexivity |].
    symmetry. apply Z.leb_le. destruct (tza <? 0); lia.
  - lia.
Qed.

(** Where the composition is right: at or east of UTC, a date-only
    [dueDate] with a time HH:MM gives that day at HH:MM local time, and
    without a time that day at 23:59. *)
Lemma due_instant_east_of_utc tza s y m d :
  0 <= tza < msPerDay -> tza mod msPerSecond = 0 ->
  parse_iso_date s = Some (y, m, d) ->
  (forall time h mi,
     time <> "" -> TasksRoute.hours_minutes time = (Some h, Some mi) ->
     0 <= h < 24 -> 0 <= mi < 60 ->
     exists tv,
       TasksRoute.processDueDate tza (JStr s) (JStr time)
       = Ok (JDate (Some tv)) /\
       LocalTime tza tv
       = MakeDate (days_from_civil y m d) (MakeTime h mi 0 0)) /\
  (forall dueTime,
     truthy dueTime = false ->
     exists tv,
       TasksRoute.processDueDate tza (JStr s) dueTime
       = Ok (JDate (Some tv)) /\
       LocalTime tza tv
       = MakeDate (days_from_civil y m d) (MakeTime 23 59 0 0)).
Proof.
  intros Htza Hsec Hparse.
  pose proof (parse_iso_date_range _ _ _ _ Hparse) as (Hy & Hm & Hd).
  pose proof (days_from_civil_range y m d Hy Hm Hd) as HD.
  assert (truthy (JStr s) = true) as Hs.
  { destruct s; [discriminate Hparse | reflexivity]. }
  assert ((tza <? 0) = false) as Heast by (apply Z.ltb_ge; lia).
  split.
  - intros time h mi Hne Hhm Hh Hmi.
    destruct (setHours_of_utc_midnight tza (days_from_civil y m d) h mi)
      as (tv & Hset & Hlocal); try assumption; try lia.
    exists tv. unfold TasksRoute.processDueDate. rewrite Hs.
    assert (truthy (JStr time) = true) as ->
      by (destruct time; [congruence | reflexivity]).
    rewrite Hhm. cbn [Date_new]. unfold Date_parse. rewrite Hparse, Hset.
    split; [reflexivity |]. now rewrite Hlocal, Heast.
  - intros dueTime Hfalsy.
    destruct (setHours_of_utc_midnight tza (days_from_civil y m d) 23 59)
      as (tv & Hset & Hlocal); try assumption; try lia.
    exists tv. unfold TasksRoute.processDueDate. rewrite Hs, Hfalsy.
    cbn [Date_new]. unfold Date_parse. rewrite Hparse, Hset.
    split; [reflexivity |]. now rewrite Hlocal, Heast.
Qed.

(** Where it is wrong: west of UTC the same inputs land on the day
    before. *)
Lemma due_instant_west_of_utc tza s y m d time h mi :
  - msPerDay < tza < 0 -> tza mod msPerSecond = 0 ->
  parse_iso_date s = Some (y, m, d) ->
  time <> "" -> TasksRoute.hours_minutes time = (Some h, Some mi) ->
  0 <= h < 24 -> 0 <= mi < 60 ->
  exists tv,
    TasksRoute.processDueDate tza (JStr s) (JStr time)
    = Ok (JDate (Some tv)) /\
    LocalTime tza tv
    = MakeDate (days_from_civil y m d - 1) (MakeTime h mi 0 0).
Proof.
  intros Htza Hsec Hparse Hne Hhm Hh Hmi.
  pose proof (parse_iso_date_range _ _ _ _ Hparse) as (Hy & Hm & Hd).
  pose proof (days_from_civil_range y m d Hy Hm Hd) as HD.
  assert (truthy (JStr s) = true) as Hs.
  { destruct s; [discriminate Hparse | reflexivity]. }
  assert ((tza <? 0) = true) as Hwest by (apply Z.ltb_lt; lia).
  destruct (setHours_of_utc_midnight tza (days_from_civil y m d) h mi)
    as (tv & Hset & Hlocal); try assumption; try lia.
  exists tv. unfold TasksRoute.processDueDate. rewrite Hs.
  assert (truthy (JStr time) = true) as ->
    by (destruct time; [congruence | reflexivity]).
  rewrite Hhm. cbn [Date_new]. unfold Date_parse. rewrite Hparse, Hset.
  split; [reflexivity |]. now rewrite Hlocal, Hwest.
Qed.

(** Without a [dueDate] the route hands [createTask] no due instant,
    whatever [dueTime] is. *)
Lemma no_dueDate_no_instant tza dueDate dueTime :
  truthy dueDate = false ->
  TasksRoute.processDueDate tza dueDate dueTime = Ok JUndefined.
Proof. intros H. unfold TasksRoute.processDueDate. now rewrite H. Qed.

(** C2.  On a server five hours west of UTC, creating a task with
    [dueDate] "2025-01-10" and [dueTime] "14:30" stores the instant
    2025-01-09T14:30 local time (19:30 UTC of the 9th): the day before the
    given date.  [new Date("2025-01-10")] is midnight UTC, still the 9th
    in that zone, and [setHours] then sets the time on that local day. *)
Theorem due_instant_a_day_early :
  let run := TasksRoute.POST western_server spec_imports
               (bearer "alice-token" dated_body) empty_world in
  TasksRoute.processDueDate (tza western_server)
    (JStr "2025-01-10") (JStr "14:30")
  = Ok (JDate (Some 1736451000000)) /\
  status (fst run) = 201 /\
  map (fun d => Task.dueDate (Task.fields d)) (tasks (db (snd run)))
  = [JDate (Some 1736451000000)] /\
  LocalTime (tza western_server) 1736451000000
  = MakeDate (days_from_civil 2025 1 9) (MakeTime 14 30 0 0) /\
  1736451000000
  = MakeDate (days_from_civil 2025 1 9) (MakeTime 19 30 0 0) /\
  LocalTime (tza western_server) 1736451000000
  <> MakeDate (days_from_civil 2025 1 10) (MakeTime 14 30 0 0).
Proof. repeat split; try reflexivity. discriminate. Qed.

(** The same request on a UTC server stores 2025-01-10T14:30. *)
Example due_instant_on_utc_server :
  map (fun d => Task.dueDate (Task.fields d))
      (tasks (db (snd (TasksRoute.POST utc_server spec_imports
                         (bearer "alice-token" dated_body) empty_world))))
  = [JDate (Some (MakeDate (days_from_civil 2025 1 10)
                    (MakeTime 14 30 0 0)))].
Proof. reflexivity. Qed.

(* ===================================================================== *)
(** * Further properties of the routes *)
(* ===================================================================== *)

(** ** POST /categories *)

Lemma POST_categories_signed_in env imp req u o w :
  db_up env = true -> signed_in imp req u -> json req = Ok o ->
  CategoriesRoute.POST env imp req w
  = try_catch
      (if negb (truthy (field o "name")) then
         ret {| status := 400; body := BFail "Category name is required" |}
       else
         newCategory <- liftR (createCategory imp
           {| Category.name := field o "name";
              Category.description := field o "description";
              Category.userId := u |}) ;;
         stored <- insertOne_category env newCategory ;;
         ret {| status := 201; body := BCategory stored |})
      (connected w).
Proof.
  intros Hdb Hin Hjson. unfold CategoriesRoute.POST, try_catch.
  rewrite (authenticated_signed_in _ _ _ u) by assumption.
  unfold bind at 1. unfold liftR at 1. now rewrite Hjson.
Qed.

(** A signed-in POST /categories whose body has no [name], or a falsy
    one, is answered 400 "Category name is required"; the store is
    unchanged and nothing but the connection was asked of the storage
    layer. *)
Theorem category_name_required env imp req u o w :
  db_up env = true -> signed_in imp req u -> json req = Ok o ->
  truthy (field o "name") = false ->
  CategoriesRoute.POST env imp req w
  = ({| status := 400; body := BFail "Category name is required" |},
     connected w).
Proof.
  intros Hdb Hin Hjson Hname.
  rewrite (POST_categories_signed_in _ _ _ u o) by assumption.
  now rewrite Hname.
Qed.

Lemma category_name_required_witness :
  CategoriesRoute.POST utc_server spec_imports
    (bearer "alice-token" {[ "description" := JStr "no name" ]}) alice_world
  = ({| status := 400; body := BFail "Category name is required" |},
     connected alice_world).
Proof.
  apply (category_name_required utc_server spec_imports _ alice
           {[ "description" := JStr "no name" ]}).
  - reflexivity.
  - exists "alice-token", alice_hex. known_credential.
  - reflexivity.
  - reflexivity.
Defined.

Lemma find_app_fresh {A} (p : A -> bool) l x :
  (forall y, In y l -> p y = false) -> p x = true ->
  List.find p (l ++ [x]) = Some x.
Proof.
  induction l as [| y rest IH]; intros Hl Hx; cbn.
  - now rewrite Hx.
  - rewrite (Hl y) by now left. apply IH; [| assumption].
    intros z Hz. apply Hl. now right.
Qed.

Lemma filter_snoc {A} (p : A -> bool) l x :
  List.filter p (l ++ [x])
  = (List.filter p l ++ (if p x then [x] else []))%list.
Proof. rewrite List.filter_app. cbn. now destruct (p x). Qed.

(** Create, then read.  When a signed-in POST /categories is answered
    201 (the constructor keeping the fields it is given), the category in
    the answer carries the body's name and description, the caller as
    owner and the id the driver drew; from then on the caller's GET by
    that id answers 200 with this very category, and the caller's list is
    the former list followed by it. *)
Theorem created_category_is_readable env verify req u o w r w' :
  db_up env = true -> signed_in (imports_with verify) req u ->
  json req = Ok o ->
  CategoriesRoute.POST env (imports_with verify) req w = (r, w') ->
  status r = 201 ->
  let c := {| Category._id := fresh env;
              Category.fields :=
                {| Category.name := field o "name";
                   Category.description := field o "description";
                   Category.userId := u |} |} in
  r = {| status := 201; body := BCategory c |} /\
  (forall env' imp' req' id,
     db_up env' = true -> signed_in imp' req' u ->
     ObjectId_new id = Ok (fresh env) ->
     CategoryRoute.GET env' imp' req' id w'
     = ({| status := 200; body := BCategory c |},
        logged w' [Connect; FindOne Categories])) /\
  (forall env' imp' req',
     db_up env' = true -> signed_in imp' req' u ->
     fst (CategoriesRoute.GET env' imp' req' w')
     = {| status := 200;
          body := BCategories
                    (List.filter (owns_category u) (categories (db w))
                     ++ [c]) |}).
Proof.
  intros Hdb Hin Hjson Hrun Hst c.
  rewrite (POST_categories_signed_in _ _ _ u o) in Hrun by assumption.
  destruct (negb (truthy (field o "name")));
    [inversion Hrun; subst; discriminate |].
  unfold try_catch, bind, liftR, insertOne_category, record_op, ret in Hrun.
  cbn in Hrun.
  destruct (existsb _ _) eqn:Hex; inversion Hrun; subst; [discriminate |].
  clear Hrun Hst. fold c.
  assert (owns_category u c = true) as Hown
    by (unfold owns_category; cbn; apply N.eqb_refl).
  split; [reflexivity | split].
  - intros env' imp' req' id Hdb' Hin' Hid.
    rewrite (GET_category_run _ _ _ u id (fresh env)) by assumption.
    cbn [db categories]. rewrite find_app_fresh; [reflexivity | |].
    + apply no_match_absent.
      now apply (fresh_not_stored Category._id).
    + unfold is_category. cbn [Category._id c].
      now rewrite N.eqb_refl, Hown.
  - intros env' imp' req' Hdb' Hin'.
    rewrite (GET_categories_run _ _ _ u) by assumption.
    cbn [fst db categories]. now rewrite filter_snoc, Hown.
Qed.

Lemma created_category_is_readable_witness :
  fst (CategoriesRoute.GET utc_server spec_imports (bearer "bob-token" ∅)
         (snd (CategoriesRoute.POST (server_next 5%N) spec_imports
                 (bearer "bob-token" work_body) alice_world)))
  = {| status := 200;
       body := BCategories
                 [{| Category._id := 5%N;
                     Category.fields :=
                       {| Category.name := JStr "Work";
                          Category.description := JUndefined;
                          Category.userId := bob |} |}] |}.
Proof.
  destruct (created_category_is_readable (server_next 5%N)
              verifyToken_two_users (bearer "bob-token" work_body) bob
              work_body alice_world
              (fst (CategoriesRoute.POST (server_next 5%N) spec_imports
                      (bearer "bob-token" work_body) alice_world))
              (snd (CategoriesRoute.POST (server_next 5%N) spec_imports
                      (bearer "bob-token" work_body) alice_world)))
    as (_ & _ & Hlist).
  - reflexivity.
  - exists "bob-token", bob_hex. known_credential.
  - reflexivity.
  - reflexivity.
  - reflexivity.
  - apply (Hlist utc_server spec_imports (bearer "bob-token" ∅)).
    + reflexivity.
    + exists "bob-token", bob_hex. known_credential.
Defined.

(** ** GET and DELETE /categories/{id} by the owner *)

Lemma find_own_category cats c u :
  List.NoDup (map Category._id cats) -> In c cats ->
  Category.userId (Category.fields c) = u ->
  List.find (is_category (Category._id c) u) cats = Some c.
Proof.
  intros Hnd Hc Hown.
  induction cats as [| x rest IH]; [contradiction |].
  cbn. destruct (is_category (Category._id c) u x) eqn:Hx.
  - apply is_category_id in Hx.
    f_equal. eapply same_key_same_element; eauto. now left.
  - destruct Hc as [-> | Hc].
    + unfold is_category, owns_category in Hx.
      rewrite N.eqb_refl in Hx. apply N.eqb_eq in Hown.
      now rewrite Hown in Hx.
    + apply IH; [| assumption].
      cbn in Hnd. now apply NoDup_cons_iff in Hnd.
Qed.

Lemma without_id_absent cats id :
  ~ In id (map Category._id cats) -> without_id id cats = cats.
Proof.
  unfold without_id. induction cats as [| x rest IH]; intros H;
    [reflexivity |].
  cbn. destruct (N.eqb_spec (Category._id x) id) as [Heq | Hne].
  - exfalso. apply H. now left.
  - cbn. f_equal. apply IH. intros Hin. apply H. now right.
Qed.

Lemma remove_own_category cats c u :
  List.NoDup (map Category._id cats) -> In c cats ->
  Category.userId (Category.fields c) = u ->
  remove_first (is_category (Category._id c) u) cats
  = Some (without_id (Category._id c) cats).
Proof.
  intros Hnd Hc Hown.
  induction cats as [| x rest IH]; [contradiction |].
  cbn in Hnd. apply NoDup_cons_iff in Hnd as [Hx Hrest].
  cbn [remove_first]. unfold without_id. cbn [List.filter].
  destruct (N.eqb_spec (Category._id x) (Category._id c)) as [Heq | Hne].
  - assert (x = c) as ->.
    { eapply (same_key_same_element Category._id (x :: rest));
        [| now left | assumption | assumption].
      cbn. now apply NoDup_cons_iff. }
    assert (is_category (Category._id c) u c = true) as ->.
    { unfold is_category, owns_category. rewrite N.eqb_refl.
      now apply N.eqb_eq in Hown as ->. }
    cbn. f_equal. symmetry. now apply without_id_absent.
  - rewrite is_category_other_id by assumption. cbn.
    destruct Hc as [-> | Hc]; [congruence |].
    fold (without_id (Category._id c) rest). now rewrite IH.
Qed.

(** The owner reads its category: in a store that holds each id once,
    GET /categories/{id} by the owner of the category with that id
    answers 200 with that category and leaves the store as it is. *)
Theorem owner_reads_own_category env imp req u id c w :
  db_up env = true -> signed_in imp req u -> unique_ids (db w) ->
  In c (categories (db w)) -> Category.userId (Category.fields c) = u ->
  ObjectId_new id = Ok (Category._id c) ->
  CategoryRoute.GET env imp req id w
  = ({| status := 200; body := BCategory c |},
     logged w [Connect; FindOne Categories]).
Proof.
  intros Hdb Hin [_ Hnd] Hc Hown Hid.
  rewrite (GET_category_run _ _ _ u id (Category._id c)) by assumption.
  now rewrite find_own_category.
Qed.

Lemma owner_reads_own_category_witness :
  CategoryRoute.GET utc_server spec_imports (bearer "alice-token" ∅) hex_1
    alice_world
  = ({| status := 200; body := BCategory work_category |},
     logged alice_world [Connect; FindOne Categories]).
Proof.
  apply (owner_reads_own_category utc_server spec_imports _ alice).
  - reflexivity.
  - exists "alice-token", alice_hex. known_credential.
  - one_document_each.
  - now left.
  - reflexivity.
  - reflexivity.
Defined.

(** The owner deletes its category: in a store that holds each id once,
    DELETE /categories/{id} by the owner answers 200 and removes that
    category and nothing else: the other categories stay, in their
    order, and so do all tasks. *)
Theorem owner_delete_removes_only_that_category env imp req u id c w :
  db_up env = true -> signed_in imp req u -> unique_ids (db w) ->
  In c (categories (db w)) -> Category.userId (Category.fields c) = u ->
  ObjectId_new id = Ok (Category._id c) ->
  CategoryRoute.DELETE env imp req id w
  = ({| status := 200; body := BDone "Category deleted successfully" |},
     {| db := {| tasks := tasks (db w);
                 categories := without_id (Category._id c)
                                 (categories (db w)) |};
        log := log w ++ [Connect; DeleteOne Categories] |}) /\
  (forall d, In d (without_id (Category._id c) (categories (db w))) <->
             In d (categories (db w)) /\ d <> c).
Proof.
  intros Hdb Hin [_ Hnd] Hc Hown Hid. split.
  - rewrite (DELETE_category_run _ _ _ u id (Category._id c)) by assumption.
    now rewrite (remove_own_category _ c u).
  - intros d. unfold without_id. rewrite filter_In. split.
    + intros [Hd Hne]. split; [assumption |]. intros ->.
      now rewrite N.eqb_refl in Hne.
    + intros [Hd Hne]. split; [assumption |].
      destruct (N.eqb_spec (Category._id d) (Category._id c)) as [Heq | _];
        [| reflexivity].
      exfalso. apply Hne. eapply same_key_same_element; eauto.
Qed.

Lemma owner_delete_removes_only_that_category_witness :
  db (snd (CategoryRoute.DELETE utc_server spec_imports
             (bearer "alice-token" ∅) hex_1 alice_world))
  = {| tasks := [milk_task]; categories := [] |}.
Proof.
  destruct (owner_delete_removes_only_that_category utc_server spec_imports
              (bearer "alice-token" ∅) alice hex_1 work_category
              alice_world) as [Hrun _].
  - reflexivity.
  - exists "alice-token", alice_hex. known_credential.
  - one_document_each.
  - now left.
  - reflexivity.
  - reflexivity.
  - now rewrite Hrun.
Defined.

(** A path segment that is not 24 characters long is no ObjectId: GET and
    DELETE /categories/{id} answer 500 and ask nothing of the categories
    collection. *)
Theorem malformed_id_is_server_error env imp req u id w :
  db_up env = true -> signed_in imp req u ->
  String.length id <> 24%nat ->
  exists msg,
    CategoryRoute.GET env imp req id w = (server_error msg, connected w) /\
    CategoryRoute.DELETE env imp req id w = (server_error msg, connected w).
Proof.
  intros Hdb Hin Hlen.
  assert (ObjectId_new id = Throw "input must be a 24 character hex string")
    as Hid.
  { unfold ObjectId_new.
    destruct (Nat.eqb_spec (String.length id) 24); [contradiction |].
    reflexivity. }
  eexists. split.
  - apply (GET_category_malformed _ _ _ u); eassumption.
  - apply (DELETE_category_malformed _ _ _ u); eassumption.
Qed.

Lemma malformed_id_is_server_error_witness :
  exists msg,
    CategoryRoute.DELETE utc_server spec_imports (bearer "alice-token" ∅)
      "1" alice_world
    = (server_error msg, connected alice_world).
Proof.
  destruct (malformed_id_is_server_error utc_server spec_imports
              (bearer "alice-token" ∅) alice "1" alice_world)
    as (msg & _ & Hdel).
  - reflexivity.
  - exists "alice-token", alice_hex. known_credential.
  - discriminate.
  - exists msg. exact Hdel.
Defined.

(** ** What a request does to other users' documents *)

Lemma remove_first_keeps_filter {A} (p q : A -> bool) l l' :
  remove_first p l = Some l' ->
  (forall x, p x = true -> q x = false) ->
  List.filter q l' = List.filter q l.
Proof.
  intros Hrm Hpq. revert l' Hrm.
  induction l as [| x rest IH]; intros l' Hrm; [discriminate |].
  cbn in Hrm. destruct (p x) eqn:Hp.
  - inversion Hrm; subst. cbn. now rewrite (Hpq x Hp).
  - destruct (remove_first p rest) as [rest' |]; [| discriminate].
    inversion Hrm; subst. cbn. now rewrite (IH rest' eq_refl).
Qed.

Lemma owns_other_task u v t :
  v <> u -> Task.userId (Task.fields t) = v -> owns_task u t = false.
Proof. intros Hne <-. unfold owns_task. now apply N.eqb_neq. Qed.

Lemma owns_other_category u v c :
  v <> u -> Category.userId (Category.fields c) = v ->
  owns_category u c = false.
Proof. intros Hne <-. unfold owns_category. now apply N.eqb_neq. Qed.

(** Writes stay with the writer.  Whatever request user [v] sends to
    whatever endpoint (the constructors keeping the [userId] they are
    given), the tasks and the categories of any other user [u] are
    afterwards exactly what they were, in the same order. *)
Theorem other_users_requests_leave_my_documents env verify e req v u w :
  signed_in (imports_with verify) req v -> v <> u ->
  let w' := snd (serve env (imports_with verify) e req w) in
  List.filter (owns_task u) (tasks (db w'))
  = List.filter (owns_task u) (tasks (db w)) /\
  List.filter (owns_category u) (categories (db w'))
  = List.filter (owns_category u) (categories (db w)).
Proof.
  intros Hin Hne.
  destruct (db_up env) eqn:Hdb;
    [| cbv zeta; rewrite serve_db_down by assumption; now split].
  destruct e; cbv zeta; cbn [serve].
  - rewrite (GET_tasks_run _ _ _ v) by assumption. now split.
  - destruct (json req) as [o | msg] eqn:Hjson.
    + rewrite (POST_tasks_signed_in _ _ _ v o) by assumption.
      destruct (negb (truthy (field o "title"))
                || negb (truthy (field o "resume"))); [now split |].
      unfold try_catch, bind, liftR, insertOne_task, record_op, ret.
      destruct (TasksRoute.processDueDate _ _ _) as [due |]; [| now split].
      cbn [imports_with createTask].
      destruct (createTask_spec _) as [d' |] eqn:Hcreate; [| now split].
      apply createTask_spec_userId in Hcreate. cbn in Hcreate. cbn.
      destruct (existsb _ _); cbn; [now split |].
      split; [| reflexivity].
      rewrite filter_snoc, (owns_other_task u v) by assumption.
      apply app_nil_r.
    + unfold TasksRoute.POST, try_catch.
      rewrite (authenticated_signed_in _ _ _ v) by assumption.
      unfold bind, liftR. rewrite Hjson. now split.
  - rewrite (GET_categories_run _ _ _ v) by assumption. now split.
  - destruct (json req) as [o | msg] eqn:Hjson.
    + rewrite (POST_categories_signed_in _ _ _ v o) by assumption.
      destruct (negb (truthy (field o "name"))); [now split |].
      unfold try_catch, bind, liftR, insertOne_category, record_op, ret.
      cbn. destruct (existsb _ _); cbn; [now split |].
      split; [reflexivity |].
      rewrite filter_snoc, (owns_other_category u v) by (assumption || reflexivity).
      apply app_nil_r.
    + unfold CategoriesRoute.POST, try_catch.
      rewrite (authenticated_signed_in _ _ _ v) by assumption.
      unfold bind, liftR. rewrite Hjson. now split.
  - destruct (ObjectId_new id) as [oid | msg] eqn:Hid.
    + rewrite (GET_category_run _ _ _ v id oid) by assumption. now split.
    + rewrite (GET_category_malformed _ _ _ v id msg) by assumption.
      now split.
  - destruct (ObjectId_new id) as [oid | msg] eqn:Hid.
    + rewrite (DELETE_category_run _ _ _ v id oid) by assumption.
      destruct (remove_first _ _) as [rest |] eqn:Hrm; [| now split].
      cbn. split; [reflexivity |].
      apply (remove_first_keeps_filter _ _ _ _ Hrm).
      intros x Hx. apply (owns_other_category u v); [assumption |].
      unfold is_category, owns_category in Hx.
      apply andb_prop in Hx as [_ Hx]. now apply N.eqb_eq in Hx.
    + rewrite (DELETE_category_malformed _ _ _ v id msg) by assumption.
      now split.
Qed.

Lemma other_users_requests_leave_my_documents_witness :
  List.filter (owns_category alice)
    (categories (db (snd (serve utc_server spec_imports
                            (DELETE_category hex_1)
                            (bearer "bob-token" ∅) alice_world))))
  = [work_category].
Proof.
  destruct (other_users_requests_leave_my_documents utc_server
              verifyToken_two_users (DELETE_category hex_1)
              (bearer "bob-token" ∅) bob alice alice_world) as [_ Hcat].
  - exists "bob-token", bob_hex. known_credential.
  - discriminate.
  - exact Hcat.
Defined.

(** ** Bodies that cannot be read *)

(** When [req.json()] throws, the two POST routes answer 500 with the
    parser's message; nothing is inserted. *)
Theorem unreadable_body_is_server_error env imp req u msg w :
  db_up env = true -> signed_in imp req u -> json req = Throw msg ->
  TasksRoute.POST env imp req w = (server_error msg, connected w) /\
  CategoriesRoute.POST env imp req w = (server_error msg, connected w).
Proof.
  intros Hdb Hin Hjson.
  unfold TasksRoute.POST, CategoriesRoute.POST, try_catch.
  rewrite !(authenticated_signed_in _ _ _ u) by assumption.
  unfold bind, liftR. rewrite Hjson. now split.
Qed.

Lemma unreadable_body_is_server_error_witness :
  TasksRoute.POST utc_server spec_imports
    {| authorization := Some "Bearer alice-token";
       json := Throw "Unexpected end of JSON input" |} alice_world
  = (server_error "Unexpected end of JSON input", connected alice_world).
Proof.
  apply (unreadable_body_is_server_error utc_server spec_imports _ alice).
  - reflexivity.
  - exists "alice-token", alice_hex. known_credential.
  - reflexivity.
Defined.

(** ** What POST /tasks answers and stores *)

Lemma js_or_null v : js_or v JNull = JNull \/ truthy (js_or v JNull) = true.
Proof. unfold js_or. destruct (truthy v) eqn:H; [now right | now left]. Qed.

(** The shape of a 201.  Whatever the imported functions are, when
    POST /tasks answers 201 exactly one document was appended to the
    tasks, under the id the driver drew, and the categories are as they
    were; the task in the answer is that document with [dueDate] and
    [dueTime] put to null when they are falsy, so neither is ever
    undefined in the answer. *)
Theorem created_task_response_shape env imp req w t :
  fst (TasksRoute.POST env imp req w)
  = {| status := 201; body := BTask t |} ->
  exists stored,
    tasks (db (snd (TasksRoute.POST env imp req w)))
    = (tasks (db w) ++ [stored])%list /\
    categories (db (snd (TasksRoute.POST env imp req w)))
    = categories (db w) /\
    Task._id stored = fresh env /\
    t = TasksRoute.response_task stored /\
    (Task.dueDate (Task.fields t) = JNull \/
     truthy (Task.dueDate (Task.fields t)) = true) /\
    (Task.dueTime (Task.fields t) = JNull \/
     truthy (Task.dueTime (Task.fields t)) = true).
Proof.
  unfold TasksRoute.POST, try_catch, authenticated, dbConnect, bind, liftR,
    record_op, ret, throw, insertOne_task.
  cbn. destruct (db_up env); cbn; [| discriminate].
  destruct (header_token req) as [[| ch token] |]; cbn; try discriminate.
  destruct (verifyToken imp _); cbn; [| discriminate].
  destruct (ObjectId_new _) as [u |]; cbn; [| discriminate].
  destruct (json req) as [o |]; cbn; [| discriminate].
  destruct (negb (truthy (field o "title"))
            || negb (truthy (field o "resume"))); cbn; [discriminate |].
  destruct (TasksRoute.processDueDate _ _ _); cbn; [| discriminate].
  destruct (createTask imp _) as [d |]; cbn; [| discriminate].
  destruct (existsb _ _); cbn; [discriminate |].
  intros [= <-]. eexists. repeat split; try reflexivity; apply js_or_null.
Qed.

Lemma created_task_response_shape_witness :
  exists stored,
    tasks (db (snd (TasksRoute.POST utc_server spec_imports
                      (bearer "alice-token" milk_body) empty_world)))
    = [stored] /\
    Task.dueDate (Task.fields stored) = JUndefined /\
    Task.dueDate (Task.fields (TasksRoute.response_task stored)) = JNull.
Proof.
  destruct (created_task_response_shape utc_server spec_imports
              (bearer "alice-token" milk_body) empty_world
              (TasksRoute.response_task
                 {| Task._id := 1%N;
                    Task.fields :=
                      {| Task.title := JStr "Buy milk";
                         Task.resume := JStr "grocery";
                         Task.description := JUndefined;
                         Task.userId := alice;
                         Task.categoryId := JUndefined;
                         Task.dueDate := JUndefined;
                         Task.dueTime := JUndefined;
                         Task.priority := JStr "medium" |} |}))
    as (stored & Hstored & _ & _ & Ht & _).
  - reflexivity.
  - exists stored. split; [exact Hstored |].
    cbn in Hstored. injection Hstored as <-. split; reflexivity.
Defined.

(** Create, then list.  When a signed-in POST /tasks is answered 201 (the
    constructor as the spec describes it), the stored task carries the
    body's title, resume and description and the caller as owner, and
    the caller's next list is the former list followed by it. *)
Theorem created_task_is_listed env verify req u o w r w' :
  db_up env = true -> signed_in (imports_with verify) req u ->
  json req = Ok o ->
  TasksRoute.POST env (imports_with verify) req w = (r, w') ->
  status r = 201 ->
  exists stored,
    tasks (db w') = (tasks (db w) ++ [stored])%list /\
    Task._id stored = fresh env /\
    Task.userId (Task.fields stored) = u /\
    Task.title (Task.fields stored) = field o "title" /\
    Task.resume (Task.fields stored) = field o "resume" /\
    Task.description (Task.fields stored) = field o "description" /\
    forall env' imp' req',
      db_up env' = true -> signed_in imp' req' u ->
      fst (TasksRoute.GET env' imp' req' w')
      = {| status := 200;
           body := BTasks
                     (map (TasksRoute.with_overdue (now env'))
                        (List.filter (owns_task u) (tasks (db w)))
                      ++ [TasksRoute.with_overdue (now env') stored]) |}.
Proof.
  intros Hdb Hin Hjson Hrun Hst.
  rewrite (POST_tasks_signed_in _ _ _ u o) in Hrun by assumption.
  destruct (negb (truthy (field o "title"))
            || negb (truthy (field o "resume")));
    [inversion Hrun; subst; discriminate |].
  unfold try_catch, bind, liftR, insertOne_task, record_op, ret in Hrun.
  destruct (TasksRoute.processDueDate _ _ _) as [due |];
    [| inversion Hrun; subst; discriminate].
  cbn [imports_with createTask] in Hrun.
  destruct (createTask_spec _) as [d' |] eqn:Hcreate;
    [| inversion Hrun; subst; discriminate].
  assert (Task.userId d' = u /\ Task.title d' = field o "title" /\
          Task.resume d' = field o "resume" /\
          Task.description d' = field o "description") as (Hu & Ht & Hr & Hd).
  { unfold createTask_spec in Hcreate.
    cbn [Task.priority Task.dueTime Task.dueDate] in Hcreate.
    destruct (truthy _ && negb _); [discriminate Hcreate |].
    destruct (field o "priority"); cbv beta iota in Hcreate;
      try (match type of Hcreate with
           | (if ?b then _ else _) = _ => destruct b
           end);
      now inversion Hcreate. }
  cbn in Hrun.
  destruct (existsb _ _); inversion Hrun; subst; [discriminate |].
  eexists. cbn [db tasks].
  split; [reflexivity |]. split; [reflexivity |].
  split; [reflexivity |]. split; [assumption |]. split; [assumption |].
  split; [assumption |].
  intros env' imp' req' Hdb' Hin'.
  rewrite (GET_tasks_run _ _ _ (Task.userId d')) by assumption.
  cbn [fst db tasks]. rewrite filter_snoc.
  unfold owns_task at 2. cbn [Task.fields Task.userId].
  rewrite N.eqb_refl. now rewrite map_app.
Qed.

Lemma created_task_is_listed_witness :
  exists stored,
    tasks (db (snd (TasksRoute.POST (server_next 7%N) spec_imports
                      (bearer "alice-token" milk_body) alice_world)))
    = [milk_task; stored] /\
    Task._id stored = 7%N.
Proof.
  destruct (created_task_is_listed (server_next 7%N) verifyToken_two_users
              (bearer "alice-token" milk_body) alice milk_body alice_world
              (fst (TasksRoute.POST (server_next 7%N) spec_imports
                      (bearer "alice-token" milk_body) alice_world))
              (snd (TasksRoute.POST (server_next 7%N) spec_imports
                      (bearer "alice-token" milk_body) alice_world)))
    as (stored & Htasks & Hid & _).
  - reflexivity.
  - exists "alice-token", alice_hex. known_credential.
  - reflexivity.
  - reflexivity.
  - reflexivity.
  - exists stored. split; [exact Htasks | exact Hid].
Defined.

(** ** The block "Process dueDate and dueTime" *)

(** A [dueTime] that is not a string.  With a [dueDate] the route calls
    [split] on it and throws: the answer is 500 and nothing is handed to
    [createTask] or inserted.  Without a [dueDate] the [dueTime] is never
    looked into and no due instant is computed. *)
Theorem dueTime_that_is_no_string env imp req u o w :
  db_up env = true -> signed_in imp req u -> json req = Ok o ->
  truthy (field o "title") = true -> truthy (field o "resume") = true ->
  truthy (field o "dueTime") = true ->
  (forall s, field o "dueTime" <> JStr s) ->
  (truthy (field o "dueDate") = true ->
   TasksRoute.POST env imp req w
   = (server_error "dueTime.split is not a function", connected w)) /\
  (truthy (field o "dueDate") = false ->
   TasksRoute.processDueDate (tza env) (field o "dueDate")
     (field o "dueTime") = Ok JUndefined).
Proof.
  intros Hdb Hin Hjson Ht Hr Htime Hnostr. split; intros Hdate.
  - rewrite (POST_tasks_signed_in _ _ _ u o) by assumption.
    rewrite Ht, Hr. cbn [negb orb].
    unfold TasksRoute.processDueDate. rewrite Hdate, Htime.
    destruct (field o "dueTime") as [| | b | n | s | tv | repr];
      try reflexivity.
    now destruct (Hnostr s).
  - now apply no_dueDate_no_instant.
Qed.

Lemma dueTime_that_is_no_string_witness :
  TasksRoute.POST utc_server spec_imports
    (bearer "alice-token"
       {[ "title" := JStr "Buy milk"; "resume" := JStr "grocery";
          "dueDate" := JStr "2025-01-10"; "dueTime" := JNum 1430 ]})
    alice_world
  = (server_error "dueTime.split is not a function", connected alice_world).
Proof.
  apply (dueTime_that_is_no_string utc_server spec_imports _ alice
           {[ "title" := JStr "Buy milk"; "resume" := JStr "grocery";
              "dueDate" := JStr "2025-01-10"; "dueTime" := JNum 1430 ]});
    try reflexivity.
  - exists "alice-token", alice_hex. known_credential.
  - discriminate.
Defined.

Lemma split_on_absent sep s :
  has_char sep s = false -> split_on sep s = [s].
Proof.
  unfold has_char.
  induction s as [| c rest IH];
    cbn [existsb list_ascii_of_string split_on]; [reflexivity |].
  intros H. apply orb_false_elim in H as [Hc Hrest].
  rewrite Hc. now rewrite IH.
Qed.

(** A [dueTime] without a colon.  [split(":")] gives a single piece, so
    [minutes] is undefined and [setHours] is handed NaN: with a
    [dueDate], the due instant the route computes is an Invalid Date,
    whatever the date and the zone. *)
Theorem dueTime_without_colon_is_invalid_date tza dueDate time :
  truthy dueDate = true -> time <> "" -> has_char ":" time = false ->
  TasksRoute.processDueDate tza dueDate (JStr time) = Ok (JDate None).
Proof.
  intros Hdate Hne Hcolon. unfold TasksRoute.processDueDate.
  rewrite Hdate.
  assert (truthy (JStr time) = true) as ->
    by (destruct time; [congruence | reflexivity]).
  unfold TasksRoute.hours_minutes. rewrite split_on_absent by assumption.
  cbn [map lookup]. unfold setHours.
  destruct (Date_new dueDate); [| reflexivity].
  now destruct (Number time).
Qed.

Lemma dueTime_without_colon_is_invalid_date_witness :
  TasksRoute.processDueDate 0 (JStr "2025-01-10") (JStr "1430")
  = Ok (JDate None).
Proof.
  apply dueTime_without_colon_is_invalid_date;
    [reflexivity | discriminate | reflexivity].
Defined.

Lemma setHours_any_time tza D h mi :
  - msPerDay < tza < msPerDay -> tza mod msPerSecond = 0 ->
  -1000000 <= D <= 4000000 -> 0 <= h <= 1000000 -> 0 <= mi <= 1000000 ->
  exists tv,
    setHours tza (TimeClip (D * msPerDay)) (Some h) (Some mi) (Some 0)
    = Some tv /\
    LocalTime tza tv
    = MakeDate (if tza <? 0 then D - 1 else D) 0
      + (h * 60 + mi) * msPerMinute.
Proof.
  unfold msPerDay, msPerSecond. intros Htza Hsec HD Hh Hmi.
  unfold TimeClip at 1.
  replace (Z.abs (D * 86400000) <=? 8640000000000000) with true
    by (symmetry; apply Z.leb_le; lia).
  unfold setHours, LocalTime, UTC, MakeDate, MakeTime, Day, msFromTime,
    msPerDay, msPerHour, msPerMinute, msPerSecond.
  assert ((D * 86400000 + tza) mod 1000 = 0) as ->.
  { Z.div_mod_to_equations; lia. }
  assert ((D * 86400000 + tza) / 86400000 = if tza <? 0 then D - 1 else D)
    as ->.
  { destruct (tza <? 0) eqn:Hneg;
      [apply Z.ltb_lt in Hneg | apply Z.ltb_ge in Hneg];
      Z.div_mod_to_equations; lia. }
  eexists. split.
  - unfold TimeClip.
    replace (Z.abs _ <=? 8640000000000000) with true; [reflexivity |].
    symmetry. apply Z.leb_le. destruct (tza <? 0); lia.
  - lia.
Qed.

(** The time of day is not range-checked.  For a date-only [dueDate] and
    a [dueTime] H:M of any two numbers, the instant is the day's local
    midnight plus H hours and M minutes: "24:00" is midnight of the next
    day, "25:70" is 02:10 of the next day. *)
Theorem dueTime_past_the_day_rolls_over tza s y m d time h mi :
  - msPerDay < tza < msPerDay -> tza mod msPerSecond = 0 ->
  parse_iso_date s = Some (y, m, d) ->
  time <> "" -> TasksRoute.hours_minutes time = (Some h, Some mi) ->
  0 <= h <= 1000000 -> 0 <= mi <= 1000000 ->
  exists tv,
    TasksRoute.processDueDate tza (JStr s) (JStr time)
    = Ok (JDate (Some tv)) /\
    let day0 := if tza <? 0 then days_from_civil y m d - 1
                else days_from_civil y m d in
    LocalTime tza tv = MakeDate day0 0 + (h * 60 + mi) * msPerMinute /\
    Day (LocalTime tza tv) = day0 + (h * 60 + mi) / 1440 /\
    TimeWithinDay (LocalTime tza tv)
    = ((h * 60 + mi) mod 1440) * msPerMinute.
Proof.
  intros Htza Hsec Hparse Hne Hhm Hh Hmi.
  pose proof (parse_iso_date_range _ _ _ _ Hparse) as (Hy & Hm & Hd).
  pose proof (days_from_civil_range y m d Hy Hm Hd) as HD.
  assert (truthy (JStr s) = true) as Hs.
  { destruct s; [discriminate Hparse | reflexivity]. }
  destruct (setHours_any_time tza (days_from_civil y m d) h mi)
    as (tv & Hset & Hlocal); try assumption.
  exists tv. unfold TasksRoute.processDueDate. rewrite Hs.
  assert (truthy (JStr time) = true) as ->
    by (destruct time; [congruence | reflexivity]).
  rewrite Hhm. cbn [Date_new]. unfold Date_parse. rewrite Hparse, Hset.
  split; [reflexivity |]. cbv zeta. rewrite Hlocal.
  set (day0 := if tza <? 0 then days_from_civil y m d - 1
               else days_from_civil y m d).
  split; [reflexivity |].
  unfold Day, TimeWithinDay, MakeDate, msPerDay, msPerMinute.
  split; Z.div_mod_to_equations; lia.
Qed.

Lemma dueTime_past_the_day_rolls_over_witness :
  exists tv,
    TasksRoute.processDueDate 0 (JStr "2025-01-10") (JStr "25:70")
    = Ok (JDate (Some tv)) /\
    Day (LocalTime 0 tv) = days_from_civil 2025 1 11 /\
    TimeWithinDay (LocalTime 0 tv) = MakeTime 2 10 0 0.
Proof.
  destruct (dueTime_past_the_day_rolls_over 0 "2025-01-10" 2025 1 10
              "25:70" 25 70)
    as (tv & Hrun & _ & Hday & Htime);
    try reflexivity; try (unfold msPerDay; lia); try discriminate.
  exists tv. split; [exact Hrun |]. split; [exact Hday | exact Htime].
Defined.

(** ** Witnesses for the zone lemmas and the 401 lemma *)

Lemma due_instant_east_of_utc_witness :
  exists tv,
    TasksRoute.processDueDate 32400000 (JStr "2025-01-10") JUndefined
    = Ok (JDate (Some tv)) /\
    LocalTime 32400000 tv
    = MakeDate (days_from_civil 2025 1 10) (MakeTime 23 59 0 0).
Proof.
  destruct (due_instant_east_of_utc 32400000 "2025-01-10" 2025 1 10)
    as [_ Hdefault];
    try reflexivity; try (unfold msPerDay; lia).
  apply Hdefault. reflexivity.
Defined.

Lemma due_instant_west_of_utc_witness :
  exists tv,
    TasksRoute.processDueDate (-28800000) (JStr "2025-01-10") (JStr "09:15")
    = Ok (JDate (Some tv)) /\
    LocalTime (-28800000) tv
    = MakeDate (days_from_civil 2025 1 10 - 1) (MakeTime 9 15 0 0).
Proof.
  apply (due_instant_west_of_utc (-28800000) "2025-01-10" 2025 1 10
           "09:15" 9 15);
    try reflexivity; try (unfold msPerDay; lia); try discriminate.
Defined.

Lemma unauthorized_only_without_token_witness : no_token no_header.
Proof.
  apply (unauthorized_only_without_token utc_server spec_imports GET_tasks
           no_header alice_world).
  reflexivity.
Defined.

(* ===================================================================== *)
(** * Further properties of the form and the pages *)
(* ===================================================================== *)

(** ** handleSaveTask *)

(** Closes an equivalence between "this key has an error" and a
    condition on the inputs, once the inputs are known to be empty or
    not. *)
Ltac iff_by_cases :=
  split; intros H;
  first [ reflexivity
        | discriminate
        | solve [eauto]
        | (split; [discriminate | reflexivity])
        | (destruct H as [x Hx]; discriminate Hx)
        | (destruct H as [H1 H2]; first [congruence | discriminate]) ].

Lemma newErrors_keys t st :
  TodoForm.newErrors t st !! "taskName"
  = (if is_empty_string (TodoForm.taskName st)
     then Some (t "task.name" +:+ " " +:+ t "task.required") else None) /\
  TodoForm.newErrors t st !! "resume"
  = (if is_empty_string (TodoForm.resume st)
     then Some (t "task.resume" +:+ " " +:+ t "task.required") else None) /\
  TodoForm.newErrors t st !! "dateInput"
  = (if negb (is_empty_string (TodoForm.timeInput st))
        && is_empty_string (TodoForm.dateInput st)
     then Some (t "task.due_date" +:+ " " +:+ t "task.required_if_time")
     else None) /\
  (forall key, key <> "taskName" -> key <> "resume" -> key <> "dateInput" ->
     TodoForm.newErrors t st !! key = None).
Proof.
  unfold TodoForm.newErrors.
  destruct (is_empty_string (TodoForm.taskName st)),
    (is_empty_string (TodoForm.resume st)),
    (negb (is_empty_string (TodoForm.timeInput st))
     && is_empty_string (TodoForm.dateInput st));
    (split; [| split; [| split]]);
    try (intros key H1 H2 H3);
    rewrite ?lookup_insert_eq; try reflexivity;
    repeat (rewrite lookup_insert_ne by congruence;
            rewrite ?lookup_insert_eq);
    try reflexivity; apply lookup_empty.
Qed.

Lemma newErrors_empty t st :
  form_ok st = true -> TodoForm.newErrors t st = ∅.
Proof.
  unfold form_ok, TodoForm.newErrors. intros H.
  apply andb_prop in H as [H Hdate]. apply andb_prop in H as [Hname Hres].
  apply negb_true_iff in Hname, Hres. rewrite Hname, Hres.
  destruct (is_empty_string (TodoForm.timeInput st)); [reflexivity |].
  cbn in Hdate. apply negb_true_iff in Hdate. now rewrite Hdate.
Qed.

Lemma newErrors_not_empty t st :
  form_ok st = false -> TodoForm.newErrors t st <> ∅.
Proof.
  unfold form_ok. intros H.
  pose proof (newErrors_keys t st) as (Hname & Hres & Hdate & _).
  destruct (is_empty_string (TodoForm.taskName st));
    [eapply has_key_not_empty; eassumption |].
  destruct (is_empty_string (TodoForm.resume st));
    [eapply has_key_not_empty; eassumption |].
  cbn in H.
  destruct (is_empty_string (TodoForm.timeInput st)); [discriminate |].
  cbn in H. apply negb_false_iff in H. rewrite H in Hdate. cbn in Hdate.
  eapply has_key_not_empty; eassumption.
Qed.

(** What Save does.  The form sends a request exactly when it has a name,
    a summary, and no time without a date; the request is then a PUT to
    the task's own path when a task is being edited, a POST to /api/tasks
    otherwise, its body is the payload of all seven inputs, and the
    shown errors are cleared.  Otherwise no request is sent and the
    errors shown are exactly: one under "taskName" when the name is
    empty, one under "resume" when the summary is empty, one under
    "dateInput" when there is a time and no date. *)
Theorem save_sends_or_explains t st :
  TodoForm.handleSaveTask t st
  = (if form_ok st then (∅, Some (form_request st))
     else (TodoForm.newErrors t st, None)) /\
  (form_ok st = false -> TodoForm.newErrors t st <> ∅) /\
  (is_Some (TodoForm.newErrors t st !! "taskName")
   <-> TodoForm.taskName st = "") /\
  (is_Some (TodoForm.newErrors t st !! "resume")
   <-> TodoForm.resume st = "") /\
  (is_Some (TodoForm.newErrors t st !! "dateInput")
   <-> TodoForm.timeInput st <> "" /\ TodoForm.dateInput st = "") /\
  (forall key, key <> "taskName" -> key <> "resume" -> key <> "dateInput" ->
     TodoForm.newErrors t st !! key = None).
Proof.
  pose proof (newErrors_keys t st) as (Hname & Hres & Hdate & Hother).
  split; [| split; [apply newErrors_not_empty | ]].
  - destruct (form_ok st) eqn:Hok.
    + unfold TodoForm.handleSaveTask.
      rewrite (newErrors_empty t st Hok), map_size_empty.
      rewrite bool_decide_false by lia.
      unfold form_request.
      now destruct (TodoForm.task_id st) as [[| ch id] |].
    + apply form_blocked. now apply newErrors_not_empty.
  - rewrite Hname, Hres, Hdate.
    split; [| split; [| split; [| assumption]]].
    + destruct (TodoForm.taskName st); cbn; iff_by_cases.
    + destruct (TodoForm.resume st); cbn; iff_by_cases.
    + destruct (TodoForm.timeInput st), (TodoForm.dateInput st); cbn;
        iff_by_cases.
Qed.

Lemma save_sends_or_explains_witness :
  TodoForm.handleSaveTask (fun key => key) blank_form
  = (∅, Some {| TodoForm.url := "/api/tasks"; TodoForm.method := "POST";
                TodoForm.payload := TodoForm.taskPayload blank_form |}).
Proof.
  destruct (save_sends_or_explains (fun key => key) blank_form) as [Hrun _].
  exact Hrun.
Defined.

(** A task whose id is the empty string is saved as a new one. *)
Example save_with_empty_id_posts :
  snd (TodoForm.handleSaveTask (fun key => key)
         {| TodoForm.taskName := "Buy milk";
            TodoForm.resume := "grocery";
            TodoForm.description := "";
            TodoForm.selectedCategoryId := None;
            TodoForm.priority := "medium";
            TodoForm.dateInput := "";
            TodoForm.timeInput := "";
            TodoForm.task_id := Some "" |})
  = Some {| TodoForm.url := "/api/tasks"; TodoForm.method := "POST";
            TodoForm.payload := TodoForm.taskPayload blank_form |}.
Proof. reflexivity. Qed.

Lemma taskPayload_fields st :
  field (TodoForm.taskPayload st) "title" = JStr (TodoForm.taskName st) /\
  field (TodoForm.taskPayload st) "resume" = JStr (TodoForm.resume st) /\
  field (TodoForm.taskPayload st) "description"
  = JStr (TodoForm.description st) /\
  field (TodoForm.taskPayload st) "priority" = JStr (TodoForm.priority st) /\
  field (TodoForm.taskPayload st) "dueDate" = JStr (TodoForm.dateInput st) /\
  field (TodoForm.taskPayload st) "dueTime" = JStr (TodoForm.timeInput st).
Proof.
  unfold field, TodoForm.taskPayload.
  repeat split;
    repeat (rewrite lookup_insert_ne by discriminate);
    now rewrite lookup_insert_eq.
Qed.

(** From the form to the store.  A new task saved from a form that
    passes, with no date, a priority among the five and a signed-in
    request carrying the form's payload: POST /tasks answers 201 and
    stores the form's name, summary, description and priority under the
    caller; the empty date and time the form sends are stored as no
    [dueDate] and no [dueTime], and the answer shows both as null. *)
Theorem saved_form_without_date env verify req u w st :
  form_ok st = true -> TodoForm.dateInput st = "" ->
  In (TodoForm.priority st) priorities ->
  db_up env = true -> signed_in (imports_with verify) req u ->
  json req = Ok (TodoForm.payload (form_request st)) ->
  ~ In (fresh env) (map Task._id (tasks (db w))) ->
  exists stored,
    TasksRoute.POST env (imports_with verify) req w
    = ({| status := 201; body := BTask (TasksRoute.response_task stored) |},
       {| db := {| tasks := tasks (db w) ++ [stored];
                   categories := categories (db w) |};
          log := log w ++ [Connect; InsertOne Tasks] |}) /\
    Task._id stored = fresh env /\
    Task.userId (Task.fields stored) = u /\
    Task.title (Task.fields stored) = JStr (TodoForm.taskName st) /\
    Task.resume (Task.fields stored) = JStr (TodoForm.resume st) /\
    Task.description (Task.fields stored) = JStr (TodoForm.description st) /\
    Task.priority (Task.fields stored) = JStr (TodoForm.priority st) /\
    Task.dueDate (Task.fields stored) = JUndefined /\
    Task.dueTime (Task.fields stored) = JUndefined /\
    Task.dueDate (Task.fields (TasksRoute.response_task stored)) = JNull /\
    Task.dueTime (Task.fields (TasksRoute.response_task stored)) = JNull.
Proof.
  intros Hok Hdate Hprio Hdb Hin Hjson Hfresh.
  assert (TodoForm.payload (form_request st) = TodoForm.taskPayload st)
    as Hpay
    by (unfold form_request;
        now destruct (TodoForm.task_id st) as [[| ch id] |]).
  rewrite Hpay in Hjson.
  pose proof (taskPayload_fields st) as (Ft & Fr & Fd & Fp & Fdate & Ftime).
  unfold form_ok in Hok.
  apply andb_prop in Hok as [Hok Htime]. apply andb_prop in Hok as [Hn Hr].
  rewrite Hdate in Htime. cbn in Htime. rewrite orb_false_r in Htime.
  assert (TodoForm.timeInput st = "") as Htime'
    by (destruct (TodoForm.timeInput st); [reflexivity | discriminate]).
  rewrite (POST_tasks_signed_in _ _ _ u (TodoForm.taskPayload st))
    by assumption.
  rewrite Ft, Fr, Fd, Fp, Fdate, Ftime, Hdate, Htime'.
  cbn [truthy]. rewrite Hn, Hr. cbn [negb orb].
  unfold try_catch, bind, liftR, insertOne_task, record_op, ret.
  unfold TasksRoute.processDueDate. cbn [truthy is_empty_string negb].
  cbn [imports_with createTask js_or truthy is_empty_string negb].
  unfold createTask_spec.
  cbn [Task.priority Task.dueTime Task.dueDate is_priority truthy andb].
  rewrite bool_decide_true by now apply list_elem_of_In.
  assert (existsb (fun x => (Task._id x =? fresh env)%N) (tasks (db w))
          = false) as Hex.
  { destruct (existsb _ _) eqn:Hex; [| reflexivity].
    exfalso. apply Hfresh. apply existsb_exists in Hex as (x & Hx & Hx').
    apply N.eqb_eq in Hx'. rewrite <- Hx'. now apply in_map. }
  cbn. rewrite Hex, <- app_assoc.
  eexists. split; [reflexivity |]. cbn. now repeat split.
Qed.

Lemma saved_form_without_date_witness :
  status (fst (TasksRoute.POST utc_server spec_imports
                 (bearer "alice-token" (TodoForm.taskPayload blank_form))
                 empty_world)) = 201.
Proof.
  destruct (saved_form_without_date utc_server verifyToken_two_users
              (bearer "alice-token" (TodoForm.taskPayload blank_form))
              alice empty_world blank_form) as (stored & Hrun & _).
  - reflexivity.
  - reflexivity.
  - cbn. tauto.
  - reflexivity.
  - exists "alice-token", alice_hex. known_credential.
  - reflexivity.
  - intros [].
  - unfold spec_imports. unfold imports_with in Hrun. now rewrite Hrun.
Defined.

(** ** The priority filter of the tasks page *)

Lemma includes_string_In l x :
  TasksPage.includes_string l x = true <-> In x l.
Proof.
  unfold TasksPage.includes_string. rewrite existsb_exists. split.
  - intros (y & Hy & Heq). apply String.eqb_eq in Heq. now subst.
  - intros Hx. exists x. split; [assumption | apply String.eqb_refl].
Qed.

Lemma toLowerCase_unit_idempotent c :
  TasksPage.toLowerCase_unit (TasksPage.toLowerCase_unit c)
  = TasksPage.toLowerCase_unit c.
Proof.
  destruct c as [[] [] [] [] [] [] [] []]; reflexivity.
Qed.

Lemma toLowerCase_idempotent s :
  TasksPage.toLowerCase (TasksPage.toLowerCase s) = TasksPage.toLowerCase s.
Proof.
  induction s as [| c rest IH]; [reflexivity |].
  cbn [TasksPage.toLowerCase]. now rewrite toLowerCase_unit_idempotent, IH.
Qed.

(** Ticking a priority.  After [onPriorityChange p] the priority [p] is
    selected exactly when it was not before, every other priority is as
    it was, a selection without repeats stays without repeats, and
    ticking a priority that was not selected and then unticking it gives
    the selection back. *)
Theorem priority_toggle p sel :
  (In p (TasksPage.onPriorityChange p sel) <-> ~ In p sel) /\
  (forall q, q <> p ->
     (In q (TasksPage.onPriorityChange p sel) <-> In q sel)) /\
  (List.NoDup sel -> List.NoDup (TasksPage.onPriorityChange p sel)) /\
  (~ In p sel ->
   TasksPage.onPriorityChange p (TasksPage.onPriorityChange p sel) = sel).
Proof.
  unfold TasksPage.onPriorityChange.
  destruct (TasksPage.includes_string sel p) eqn:Hinc.
  - apply includes_string_In in Hinc.
    split; [| split; [| split]].
    + rewrite filter_In. split; [| tauto].
      intros [_ H]. now rewrite String.eqb_refl in H.
    + intros q Hq. rewrite filter_In. split; [tauto |].
      intros Hin. split; [assumption |].
      now apply negb_true_iff, String.eqb_neq.
    + intros Hnd. now apply List.NoDup_filter.
    + tauto.
  - assert (~ In p sel) as Hnot.
    { intros Hin. apply includes_string_In in Hin. congruence. }
    split; [| split; [| split]].
    + split; [tauto |]. intros _. apply in_or_app. right. now left.
    + intros q Hq. rewrite in_app_iff. cbn. intuition congruence.
    + intros Hnd. apply NoDup_snoc; assumption.
    + intros _.
      assert (TasksPage.includes_string (sel ++ [p]) p = true) as ->.
      { apply includes_string_In, in_or_app. right. now left. }
      rewrite List.filter_app. cbn. rewrite String.eqb_refl. cbn.
      rewrite app_nil_r.
      clear Hinc. induction sel as [| x rest IH]; [reflexivity |].
      cbn. destruct (String.eqb_spec x p) as [-> | Hne].
      * exfalso. apply Hnot. now left.
      * cbn. f_equal. apply IH. intros Hin. apply Hnot. now right.
Qed.

(** The filtered list.  With nothing selected, and after "clear
    filters", every task is shown.  With a selection, a task is shown
    exactly when its priority in lower case is one of the selected
    entries; the entries themselves are compared as they are, so a
    selection none of whose entries is in lower case shows no task. *)
Theorem filter_by_priority {T} (priority : T -> string) (tasks : list T) :
  TasksPage.filteredTasks priority tasks [] = tasks /\
  TasksPage.filteredTasks priority tasks TasksPage.clearFilters = tasks /\
  (forall sel task, sel <> [] ->
     (In task (TasksPage.filteredTasks priority tasks sel) <->
      In task tasks /\ In (TasksPage.toLowerCase (priority task)) sel)) /\
  (forall sel, sel <> [] ->
     (forall x, In x sel -> TasksPage.toLowerCase x <> x) ->
     TasksPage.filteredTasks priority tasks sel = []).
Proof.
  assert (TasksPage.filteredTasks priority tasks [] = tasks) as Hall.
  { unfold TasksPage.filteredTasks.
    change (0 <? length (@nil string))%nat with false.
    induction tasks as [| x rest IH]; [reflexivity |].
    cbn [List.filter]. now rewrite IH. }
  assert (forall sel task, sel <> [] ->
     (In task (TasksPage.filteredTasks priority tasks sel) <->
      In task tasks /\ In (TasksPage.toLowerCase (priority task)) sel))
    as Hiff.
  { intros sel task Hsel. unfold TasksPage.filteredTasks.
    rewrite filter_In.
    destruct sel as [| x rest]; [congruence |].
    change (0 <? length (x :: rest))%nat with true. cbv beta iota.
    now rewrite includes_string_In. }
  split; [assumption |]. split; [assumption |]. split; [assumption |].
  intros sel Hsel Hupper.
  destruct (TasksPage.filteredTasks priority tasks sel) as [| task l] eqn:Hf;
    [reflexivity |].
  exfalso.
  assert (In task (TasksPage.filteredTasks priority tasks sel)) as Hin
    by (rewrite Hf; now left).
  apply Hiff in Hin as [_ Hin]; [| assumption].
  apply (Hupper _ Hin). apply toLowerCase_idempotent.
Qed.

(** ** The token read from the cookies *)

Lemma prefix_append p s : String.prefix p (p +:+ s) = true.
Proof.
  induction p as [| a p IH].
  - now destruct s.
  - change (String a p +:+ s) with (String a (p +:+ s)).
    cbn [String.prefix]. now destruct (ascii_dec a a).
Qed.

Lemma split_go_no_separator s :
  has_char ";" s = false -> Dashboard.split_go "; " 0 s = (s, []).
Proof.
  unfold has_char.
  induction s as [| c rest IH]; [reflexivity |].
  cbn [existsb list_ascii_of_string]. intros H.
  apply orb_false_elim in H as [Hc Hrest].
  cbn [Dashboard.split_go String.prefix].
  destruct (ascii_dec ";" c) as [<- | _]; [discriminate Hc |].
  now rewrite IH.
Qed.

Lemma split_go_first_cookie s rest :
  has_char ";" s = false ->
  Dashboard.split_go "; " 0 (s +:+ "; " +:+ rest)
  = (s, Dashboard.split "; " rest).
Proof.
  unfold has_char.
  induction s as [| c s' IH]; intros H.
  - change ("" +:+ "; " +:+ rest) with (String ";" (String " " rest)).
    cbn. replace (String.prefix "" rest) with true by (now destruct rest).
    unfold Dashboard.split.
    now destruct (Dashboard.split_go "; " 0 rest).
  - cbn [existsb list_ascii_of_string] in H.
    apply orb_false_elim in H as [Hc Hrest].
    change (String c s' +:+ "; " +:+ rest)
      with (String c (s' +:+ "; " +:+ rest)).
    cbn [Dashboard.split_go String.prefix].
    destruct (ascii_dec ";" c) as [<- | _]; [discriminate Hc |].
    now rewrite IH.
Qed.

Lemma split_on_first_piece sep s rest :
  has_char sep s = false ->
  split_on sep (s +:+ String sep rest) = s :: split_on sep rest.
Proof.
  unfold has_char.
  induction s as [| c s' IH]; intros H.
  - change ("" +:+ String sep rest) with (String sep rest).
    cbn [split_on]. now rewrite Ascii.eqb_refl.
  - cbn [existsb list_ascii_of_string] in H.
    apply orb_false_elim in H as [Hc Hrest].
    change (String c s' +:+ String sep rest)
      with (String c (s' +:+ String sep rest)).
    cbn [split_on]. now rewrite Hc, IH.
Qed.

Lemma has_char_app c s1 s2 :
  has_char c (s1 +:+ s2) = has_char c s1 || has_char c s2.
Proof.
  unfold has_char. induction s1 as [| x rest IH]; [reflexivity |].
  change (String x rest +:+ s2) with (String x (rest +:+ s2)).
  cbn [existsb list_ascii_of_string]. now rewrite IH, orb_assoc.
Qed.

(** Reading the token.  From a cookie string whose only or first cookie
    is [authToken=t], or whose second cookie it is after one that does
    not start with "authToken=", the token read is [t], provided [t] has
    neither ";" nor "=".  When the value does contain "=", only what
    precedes its first "=" is read.  The request then carries
    "Bearer <token>", from which the routes read the same token back
    when it has no space. *)
Theorem token_from_cookies t :
  has_char ";" t = false -> has_char "=" t = false ->
  Dashboard.token ("authToken=" +:+ t) = Some t /\
  (forall others,
     has_char ";" others = false ->
     Dashboard.token ("authToken=" +:+ t +:+ "; " +:+ others) = Some t) /\
  (forall other,
     has_char ";" other = false ->
     String.prefix "authToken=" other = false ->
     Dashboard.token (other +:+ "; " +:+ "authToken=" +:+ t) = Some t) /\
  (forall tail,
     has_char ";" tail = false ->
     Dashboard.token ("authToken=" +:+ t +:+ "=" +:+ tail) = Some t) /\
  (t <> "" -> has_space t = false ->
   forall o,
     header_token
       {| authorization :=
            Dashboard.fetchUser_authorization ("authToken=" +:+ t);
          json := o |}
     = Some t).
Proof.
  intros Hsemi Heq.
  assert (has_char ";" ("authToken=" +:+ t) = false) as Hrow
    by (now rewrite has_char_app, Hsemi).
  assert (split_on "=" ("authToken=" +:+ t) !! 1%nat = Some t) as Hpiece.
  { change ("authToken=" +:+ t) with ("authToken" +:+ String "=" t).
    rewrite split_on_first_piece by reflexivity.
    now rewrite split_on_absent. }
  assert (Dashboard.token ("authToken=" +:+ t) = Some t) as Hsingle.
  { unfold Dashboard.token, Dashboard.split.
    rewrite split_go_no_separator by assumption.
    cbn [List.find]. now rewrite prefix_append. }
  split; [assumption |]. split; [| split; [| split]].
  - intros others Hothers. unfold Dashboard.token, Dashboard.split.
    change ("authToken=" +:+ t +:+ "; " +:+ others)
      with (("authToken=" +:+ t) +:+ "; " +:+ others).
    rewrite split_go_first_cookie by assumption.
    cbn [List.find]. now rewrite prefix_append.
  - intros other Hother Hprefix. unfold Dashboard.token, Dashboard.split.
    rewrite split_go_first_cookie by assumption.
    cbn [List.find]. rewrite Hprefix.
    fold (Dashboard.token ("authToken=" +:+ t)).
    unfold Dashboard.token in Hsingle. exact Hsingle.
  - intros tail Htail. unfold Dashboard.token, Dashboard.split.
    rewrite split_go_no_separator
      by (change ("authToken=" +:+ t +:+ "=" +:+ tail)
            with ("authToken=" +:+ (t +:+ ("=" +:+ tail)));
          now rewrite !has_char_app, Hsemi, Htail).
    cbn [List.find]. rewrite prefix_append.
    change ("authToken=" +:+ t +:+ "=" +:+ tail)
      with ("authToken" +:+ String "=" (t +:+ String "=" tail)).
    rewrite split_on_first_piece by reflexivity.
    now rewrite split_on_first_piece by assumption.
  - intros Hne Hspace o. unfold Dashboard.fetchUser_authorization.
    rewrite Hsingle. destruct t as [| c rest]; [congruence |].
    change ("Bearer " +:+ String c rest)
      with ("Bearer" +:+ " " +:+ String c rest).
    rewrite header_token_scheme by reflexivity.
    now rewrite split_on_single.
Qed.

Lemma token_from_cookies_witness :
  Dashboard.token "theme=dark; authToken=abc.def.ghi" = Some "abc.def.ghi" /\
  Dashboard.token "authToken=YWJj=" = Some "YWJj".
Proof.
  destruct (token_from_cookies "abc.def.ghi" eq_refl eq_refl)
    as (_ & _ & Hsecond & _).
  destruct (token_from_cookies "YWJj" eq_refl eq_refl)
    as (_ & _ & _ & Hcut & _).
  split.
  - apply (Hsecond "theme=dark"); reflexivity.
  - apply (Hcut ""). reflexivity.
Defined.

(** A cookie string with no cookie whose name starts with "authToken="
    yields no token, and [fetchUser] sends no request. *)
Theorem no_cookie_no_request cookie :
  (forall row, In row (Dashboard.split "; " cookie) ->
     String.prefix "authToken=" row = false) ->
  Dashboard.token cookie = None /\
  Dashboard.fetchUser_authorization cookie = None.
Proof.
  intros Hrows. unfold Dashboard.fetchUser_authorization, Dashboard.token.
  now rewrite find_none_of.
Qed.

Lemma no_cookie_no_request_witness :
  Dashboard.fetchUser_authorization "theme=dark; lang=pt" = None.
Proof.
  apply (no_cookie_no_request "theme=dark; lang=pt").
  intros row [<- | [<- | []]]; reflexivity.
Defined.

(** ** The category dropdown of the form *)

Lemma same_id_same_category (l : list CategoryDropdown.Category) x y :
  List.NoDup (map CategoryDropdown._id l) -> In x l -> In y l ->
  CategoryDropdown._id x = CategoryDropdown._id y -> x = y.
Proof.
  induction l as [| z rest IH]; intros Hnd Hx Hy Hk; [contradiction |].
  cbn in Hnd. apply NoDup_cons_iff in Hnd as [Hz Hrest].
  destruct Hx as [-> | Hx], Hy as [-> | Hy].
  - reflexivity.
  - exfalso. apply Hz. rewrite Hk. now apply in_map.
  - exfalso. apply Hz. rewrite <- Hk. now apply in_map.
  - now apply IH.
Qed.

(** Choosing a category.  When the categories have distinct, non-empty
    ids, choosing one of the offered names selects a category's id, and
    the dropdown then shows that same name.  A name that is not offered
    selects nothing, and with nothing selected the placeholder is
    shown. *)
Theorem chosen_category_is_shown t categories value :
  List.NoDup (map CategoryDropdown._id categories) ->
  (forall c, In c categories -> CategoryDropdown._id c <> "") ->
  (In value (CategoryDropdown.options categories) ->
   exists id,
     CategoryDropdown.onSelect categories value = Some id /\
     CategoryDropdown.selectedValue t categories (Some id) = value) /\
  (~ In value (CategoryDropdown.options categories) ->
   CategoryDropdown.onSelect categories value = None /\
   CategoryDropdown.selectedValue t categories
     (CategoryDropdown.onSelect categories value)
   = t "task.select_category").
Proof.
  intros Hnd Hids. split.
  - intros Hvalue. unfold CategoryDropdown.options in Hvalue.
    apply in_map_iff in Hvalue as (c & Hname & Hc).
    unfold CategoryDropdown.onSelect.
    destruct (List.find _ categories) as [c0 |] eqn:Hfind.
    + apply find_some in Hfind as [Hc0 Hname0].
      apply String.eqb_eq in Hname0.
      pose proof (Hids c0 Hc0) as Hid0.
      destruct (CategoryDropdown._id c0) as [| ch id'] eqn:Hid;
        [congruence |].
      cbn [is_empty_string]. eexists. split; [reflexivity |].
      unfold CategoryDropdown.selectedValue.
      destruct (List.find _ categories) as [c1 |] eqn:Hfind1.
      * apply find_some in Hfind1 as [Hc1 Hid1].
        apply String.eqb_eq in Hid1. rewrite <- Hid in Hid1.
        now rewrite (same_id_same_category categories c1 c0).
      * exfalso.
        pose proof (find_none _ _ Hfind1 c0 Hc0) as Hno.
        cbn in Hno. rewrite Hid in Hno.
        now rewrite String.eqb_refl in Hno.
    + exfalso.
      pose proof (find_none _ _ Hfind c Hc) as Hno.
      cbn in Hno. rewrite Hname in Hno.
      now rewrite String.eqb_refl in Hno.
  - intros Hvalue.
    assert (CategoryDropdown.onSelect categories value = None) as ->.
    { unfold CategoryDropdown.onSelect. rewrite find_none_of; [reflexivity |].
      intros c Hc. apply String.eqb_neq. intros Heq. apply Hvalue.
      unfold CategoryDropdown.options. rewrite <- Heq. now apply in_map. }
    now split.
Qed.

Lemma chosen_category_is_shown_witness :
  exists id,
    CategoryDropdown.onSelect three_categories "Home" = Some id /\
    CategoryDropdown.selectedValue (fun key => key) three_categories
      (Some id) = "Home".
Proof.
  destruct (chosen_category_is_shown (fun key => key) three_categories
              "Home") as [Hshown _].
  - cbn. repeat (apply NoDup_cons_iff; split;
                 [cbn; intuition discriminate |]).
    constructor.
  - intros c [<- | [<- | [<- | []]]]; discriminate.
  - apply Hshown. cbn. tauto.
Defined.

(* ===================================================================== *)
(** * Failures and reads *)
(* ===================================================================== *)

(** The database is down.  When [dbConnect] fails, every endpoint answers
    500, whatever the credential, the body and the path: the connection
    is the first thing each handler asks for.  The store is untouched. *)
Theorem database_down_answers_500 env imp e req w :
  db_up env = false ->
  status (fst (serve env imp e req w)) = 500 /\
  db (snd (serve env imp e req w)) = db w /\
  log (snd (serve env imp e req w)) = (log w ++ [Connect])%list.
Proof. intros Hdb. rewrite serve_db_down by assumption. now split. Qed.

Lemma database_down_answers_500_witness :
  status (fst (serve {| db_up := false; now := 0; tza := 0; fresh := 1%N |}
                 spec_imports GET_tasks no_header alice_world)) = 500.
Proof.
  apply (database_down_answers_500
           {| db_up := false; now := 0; tza := 0; fresh := 1%N |}).
  reflexivity.
Defined.

(** Only a success writes.  Whatever the imported functions do, a request
    that is not answered 200 or 201 leaves the store exactly as it was,
    on every endpoint; and the three GET endpoints leave it as it was
    whatever they answer. *)
Theorem only_successful_writes_change_the_store env imp e req w :
  (status (fst (serve env imp e req w)) <> 200 ->
   status (fst (serve env imp e req w)) <> 201 ->
   db (snd (serve env imp e req w)) = db w) /\
  (match e with
   | GET_tasks | GET_categories | GET_category _ => True
   | _ => False
   end ->
   db (snd (serve env imp e req w)) = db w).
Proof.
  destruct (db_up env) eqn:Hdb;
    [| rewrite serve_db_down by assumption; now split].
  destruct (header_token req) as [token |] eqn:Htok;
    [| rewrite serve_no_token by (assumption || now left); now split].
  destruct token as [| ch token];
    [rewrite serve_no_token by (assumption || now right); now split |].
  destruct (verifyToken imp (String ch token)) as [hex | msg] eqn:Hver;
    [| rewrite (serve_rejected _ _ _ _ msg);
       [now split | assumption |
        exists (String ch token); repeat split; try assumption;
        discriminate]].
  destruct e; cbn [serve];
    unfold TasksRoute.GET, TasksRoute.POST, CategoriesRoute.GET,
      CategoriesRoute.POST, CategoryRoute.GET, CategoryRoute.DELETE,
      try_catch, authenticated, dbConnect, bind, liftR, record_op, ret,
      find_tasks, find_categories, findOne_category, deleteOne_category,
      insertOne_task, insertOne_category;
    rewrite Hdb, Htok, Hver; cbn;
    destruct (ObjectId_new hex) as [u |]; cbn; try (now split).
  - destruct (json req) as [o |]; cbn; [| now split].
    destruct (negb (truthy (field o "title"))
              || negb (truthy (field o "resume"))); cbn; [now split |].
    destruct (TasksRoute.processDueDate _ _ _); cbn; [| now split].
    destruct (createTask imp _); cbn; [| now split].
    destruct (existsb _ _); cbn; [now split |].
    split; [congruence | contradiction].
  - destruct (json req) as [o |]; cbn; [| now split].
    destruct (negb (truthy (field o "name"))); cbn; [now split |].
    destruct (createCategory imp _); cbn; [| now split].
    destruct (existsb _ _); cbn; [now split |].
    split; [congruence | contradiction].
  - destruct (ObjectId_new id); cbn; [| now split].
    destruct (List.find _ _); now split.
  - destruct (ObjectId_new id) as [oid |]; cbn; [| now split].
    destruct (remove_first _ _); cbn; [| now split].
    split; [congruence | contradiction].
Qed.

Lemma only_successful_writes_change_the_store_witness :
  db (snd (serve utc_server spec_imports POST_tasks
             (bearer "alice-token" urgent_body) alice_world))
  = db alice_world.
Proof.
  destruct (only_successful_writes_change_the_store utc_server spec_imports
              POST_tasks (bearer "alice-token" urgent_body) alice_world)
    as [Hfail _].
  apply Hfail; discriminate.
Defined.
